(** * UpdateInterio: mock authentication store, payment adapter and QR countdown

    A shallow embedding of
    - [MockAuthService] (the localStorage-backed user registry),
    - [RazorpayService] (the payment-gateway adapter), and
    - the countdown effect of [StreamlinedUPIPayment],
    followed by the properties the specification states about them. *)

From Stdlib Require Import Floats ZArith Ascii String.
From stdpp Require Import gmap strings list pretty.

Set Warnings "-register-all".
Open Scope string_scope.
Open Scope list_scope.

(** ** JavaScript strings

    A string is the sequence of its characters.

    [String.prototype.toLowerCase] is a built-in that folds every letter
    of Unicode; its tables are no part of the program.  The model takes
    it as a parameter, the class [CaseFolding], so that what is proved
    holds for whatever the built-in does.  The closed statements use the
    folding of the letters A-Z, [ascii_folding], which agrees with the
    built-in on strings without other capitals.

    [toUpperCase] is applied to the base-36 digits of [Math.random()]
    only, where folding a-z is all there is to it. *)
Module JSString.

Class CaseFolding := toLowerCase : string -> string.

(** Folding twice is folding once. *)
Definition idempotent (folding : CaseFolding) : Prop :=
  forall s : string, toLowerCase (toLowerCase s) = toLowerCase s.

Definition ascii_lower_char (c : ascii) : ascii :=
  let n := N_of_ascii c in
  if ((65 <=? n) && (n <=? 90))%N then ascii_of_N (n + 32) else c.

Definition upper_char (c : ascii) : ascii :=
  let n := N_of_ascii c in
  if ((97 <=? n) && (n <=? 122))%N then ascii_of_N (n - 32) else c.

Fixpoint ascii_toLowerCase (s : string) : string :=
  match s with
  | EmptyString => EmptyString
  | String c s' => String (ascii_lower_char c) (ascii_toLowerCase s')
  end.

Definition ascii_folding : CaseFolding := ascii_toLowerCase.

Fixpoint toUpperCase (s : string) : string :=
  match s with
  | EmptyString => EmptyString
  | String c s' => String (upper_char c) (toUpperCase s')
  end.

(** [s.substring(a, b)] for [a <= b]: the characters at positions
    [a .. b-1], clamped to the length of [s]. *)
Definition substring (a b : nat) (s : string) : string :=
  String.substring a (b - a) s.

(** [`${n}`] for a non-negative integer. *)
Definition of_N (n : N) : string := pretty n.

End JSString.

(** ** JavaScript values, JSON documents and exceptions *)
Module JS.

Inductive exn :=
| Error (message : string)
| TypeError
| SyntaxError
| QuotaExceededError.

Inductive result (A : Type) :=
| Ok (a : A)
| Throw (e : exn).
Arguments Ok {A} a.
Arguments Throw {A} e.

(** Run-time values.  An object is the list of its own properties in
    insertion order; a property is looked up from the front.  Numbers are
    integers here: the records of the store hold strings only. *)
Inductive value :=
| VUndefined
| VNull
| VBool (b : bool)
| VNum (n : Z)
| VStr (s : string)
| VArr (elems : list value)
| VObj (props : list (string * value)).

(** What [JSON.parse] yields: a value without [undefined]. *)
Inductive json :=
| JNull
| JBool (b : bool)
| JNum (n : Z)
| JStr (s : string)
| JArr (elems : list json)
| JObj (props : list (string * json)).

(** A stored string: either a JSON text, represented by the document it
    denotes, or a string [JSON.parse] rejects (the empty string included). *)
Inductive text :=
| Json (j : json)
| Raw (s : string).

Fixpoint of_json (j : json) : value :=
  match j with
  | JNull => VNull
  | JBool b => VBool b
  | JNum n => VNum n
  | JStr s => VStr s
  | JArr l => VArr (map of_json l)
  | JObj ps => VObj (map (fun p => (fst p, of_json (snd p))) ps)
  end.

(** [JSON.stringify] below the top level: an [undefined] array element
    becomes [null], a property whose value is [undefined] is left out. *)
Fixpoint to_json (v : value) : json :=
  match v with
  | VUndefined => JNull
  | VNull => JNull
  | VBool b => JBool b
  | VNum n => JNum n
  | VStr s => JStr s
  | VArr l => JArr (map to_json l)
  | VObj ps =>
      JObj ((fix props (ps : list (string * value)) : list (string * json) :=
               match ps with
               | [] => []
               | (k, VUndefined) :: ps' => props ps'
               | (k, v) :: ps' => (k, to_json v) :: props ps'
               end) ps)
  end.

Fixpoint to_json_props (ps : list (string * value)) : list (string * json) :=
  match ps with
  | [] => []
  | (k, VUndefined) :: ps' => to_json_props ps'
  | (k, v) :: ps' => (k, to_json v) :: to_json_props ps'
  end.

(** [JSON.stringify(undefined)] is [undefined], which a storage write
    coerces to the string "undefined". *)
Definition JSON_stringify (v : value) : text :=
  match v with
  | VUndefined => Raw "undefined"
  | _ => Json (to_json v)
  end.

Definition JSON_parse (t : text) : result value :=
  match t with
  | Json j => Ok (of_json j)
  | Raw _ => Throw SyntaxError
  end.

(** Truthiness of a string read from storage. *)
Definition text_truthy (t : text) : bool :=
  match t with
  | Json _ => true
  | Raw s => negb (String.eqb s "")
  end.

Definition truthy (v : value) : bool :=
  match v with
  | VUndefined | VNull => false
  | VBool b => b
  | VNum n => negb (n =? 0)%Z
  | VStr s => negb (String.eqb s "")
  | VArr _ | VObj _ => true
  end.

Fixpoint lookup_prop {A} (k : string) (ps : list (string * A)) : option A :=
  match ps with
  | [] => None
  | (k', v) :: ps' => if String.eqb k' k then Some v else lookup_prop k ps'
  end.

(** [v.k] for a property name [k] that no built-in prototype defines
    (the only names this program reads): a [TypeError] on [undefined] and
    [null], the own property of an object, [undefined] otherwise. *)
Definition get_prop (v : value) (k : string) : result value :=
  match v with
  | VUndefined | VNull => Throw TypeError
  | VObj ps => Ok (default VUndefined (lookup_prop k ps))
  | _ => Ok VUndefined
  end.

(** [v.toLowerCase()]: only a string has the method. *)
Definition call_toLowerCase {folding : JSString.CaseFolding} (v : value)
  : result string :=
  match v with
  | VStr s => Ok (JSString.toLowerCase s)
  | _ => Throw TypeError
  end.

(** [v === s] for a string [s]. *)
Definition strict_eq_str (v : value) (s : string) : bool :=
  match v with
  | VStr s' => String.eqb s' s
  | _ => false
  end.

(** [Array.prototype.find]: the first element the callback accepts, or
    [undefined]; an exception of the callback ends the search. *)
Fixpoint find (p : value -> result bool) (l : list value) : result value :=
  match l with
  | [] => Ok VUndefined
  | x :: l' =>
      match p x with
      | Throw e => Throw e
      | Ok true => Ok x
      | Ok false => find p l'
      end
  end.

(** [Array.prototype.some]. *)
Fixpoint some (p : value -> result bool) (l : list value) : result bool :=
  match l with
  | [] => Ok false
  | x :: l' =>
      match p x with
      | Throw e => Throw e
      | Ok true => Ok true
      | Ok false => some p l'
      end
  end.

End JS.
Import JS.

(** ** Browser storage

    [localStorage] maps keys to strings.  Of its three methods used here
    only [setItem] can fail: the browser refuses a write when the quota is
    exhausted or storage is disabled for the site.  Which writes it
    refuses is the browser's business, hence the field [accepts]. *)
Module LocalStorage.

Record Storage := {
  items : gmap string text;
  accepts : gmap string text -> string -> text -> bool;
}.

Definition with_items (st : Storage) (m : gmap string text) : Storage :=
  {| items := m; accepts := accepts st |}.

(** Computations over the storage that may throw. *)
Definition M (A : Type) : Type := Storage -> result A * Storage.

Definition ret {A} (a : A) : M A := fun st => (Ok a, st).
Definition throw {A} (e : exn) : M A := fun st => (Throw e, st).
Definition bind {A B} (c : M A) (k : A -> M B) : M B :=
  fun st =>
    match c st with
    | (Ok a, st') => k a st'
    | (Throw e, st') => (Throw e, st')
    end.
Definition try_catch {A} (c : M A) (h : exn -> M A) : M A :=
  fun st =>
    match c st with
    | (Ok a, st') => (Ok a, st')
    | (Throw e, st') => h e st'
    end.
Definition lift {A} (r : result A) : M A := fun st => (r, st).

Definition getItem (k : string) : M (option text) :=
  fun st => (Ok (items st !! k), st).

Definition setItem (k : string) (t : text) : M unit :=
  fun st =>
    if accepts st (items st) k t
    then (Ok tt, with_items st (<[k := t]> (items st)))
    else (Throw QuotaExceededError, st).

Definition removeItem (k : string) : M unit :=
  fun st => (Ok tt, with_items st (delete k (items st))).

(** What a write leaves behind when the caller swallows its failure, as
    every writer of this program does. *)
Definition put (k : string) (t : text) (st : Storage) : Storage :=
  if accepts st (items st) k t then with_items st (<[k := t]> (items st)) else st.

End LocalStorage.
Import LocalStorage.

Notation "x <- c1 ;; c2" := (LocalStorage.bind c1 (fun x => c2))
  (at level 100, c1 at next level, right associativity).
Notation "c1 ;;; c2" := (LocalStorage.bind c1 (fun _ => c2))
  (at level 100, right associativity).

(** ** The mock authentication store *)
Module MockAuthService.

Section WithFolding.

Context {folding : JSString.CaseFolding}.

(** The [StoredUser] interface. *)
Record StoredUser := {
  id : string;
  email : string;
  password : string;
  fullName : string;
  mobileNumber : option string;
  avatar : option string;
  createdAt : string;
}.

Definition USERS_STORAGE_KEY : string := "interoo_users".
Definition CURRENT_USER_KEY : string := "interoo_current_user".

Definition PLACEHOLDER_AVATAR : string :=
  "https://images.pexels.com/photos/1043471/pexels-photo-1043471.jpeg?auto=compress&cs=tinysrgb&w=100".

Definition opt_str (o : option string) : value :=
  match o with
  | Some s => VStr s
  | None => VUndefined
  end.

(** The object literal of a [StoredUser], properties in the order in
    which [register] writes them. *)
Definition user_object (u : StoredUser) : value :=
  VObj [ ("id", VStr (id u));
         ("email", VStr (email u));
         ("password", VStr (password u));
         ("fullName", VStr (fullName u));
         ("mobileNumber", opt_str (mobileNumber u));
         ("avatar", opt_str (avatar u));
         ("createdAt", VStr (createdAt u)) ].

(** What one call of [register] reads from its surroundings:
    [Date.now()], [Math.random().toString(36)] and
    [new Date().toISOString()]. *)
Record Readings := {
  now : N;
  random36 : string;
  isoNow : string;
}.

(** [getStoredUsers]: the parsed list, or the empty array when the key
    is absent, the string is empty or parsing throws. *)
Definition getStoredUsers : M value :=
  try_catch
    (users <- getItem USERS_STORAGE_KEY ;;
     match users with
     | Some t => if text_truthy t then lift (JSON_parse t) else ret (VArr [])
     | None => ret (VArr [])
     end)
    (fun _ => ret (VArr [])).

(** [saveUsers]: a refused write is logged and swallowed. *)
Definition saveUsers (users : value) : M unit :=
  try_catch
    (setItem USERS_STORAGE_KEY (JSON_stringify users))
    (fun _ => ret tt).

(** The callback [user => user.email.toLowerCase() === email.toLowerCase()]. *)
Definition email_matches (email : string) (user : value) : result bool :=
  match get_prop user "email" with
  | Throw e => Throw e
  | Ok e =>
      match call_toLowerCase e with
      | Throw x => Throw x
      | Ok lowered => Ok (String.eqb lowered (JSString.toLowerCase email))
      end
  end.

(** The callback of [login]; [&&] evaluates the password test only when
    the emails agree. *)
Definition credentials_match (email password : string) (user : value) : result bool :=
  match email_matches email user with
  | Throw e => Throw e
  | Ok false => Ok false
  | Ok true =>
      match get_prop user "password" with
      | Throw e => Throw e
      | Ok p => Ok (strict_eq_str p password)
      end
  end.

(** [users.find(cb)] resp. [users.some(cb)]; anything but an array has
    no such method. *)
Definition array_find (cb : value -> result bool) (users : value) : result value :=
  match users with
  | VArr l => find cb l
  | _ => Throw TypeError
  end.

Definition array_some (cb : value -> result bool) (users : value) : result bool :=
  match users with
  | VArr l => some cb l
  | _ => Throw TypeError
  end.

(** [users.push(x)]. *)
Definition array_push (users : value) (x : value) : result value :=
  match users with
  | VArr l => Ok (VArr (l ++ [x]))
  | _ => Throw TypeError
  end.

(** The reduced record [setCurrentUser] stores. *)
Definition userForStorage (user : value) : result value :=
  match get_prop user "id", get_prop user "email", get_prop user "fullName",
        get_prop user "avatar", get_prop user "mobileNumber" with
  | Ok i, Ok e, Ok n, Ok a, Ok m =>
      Ok (VObj [ ("id", i); ("email", e); ("name", n);
                 ("avatar", a); ("mobileNumber", m) ])
  | _, _, _, _, _ => Throw TypeError
  end.

(** [setCurrentUser]: every failure inside the [try] is logged and
    swallowed. *)
Definition setCurrentUser (user : value) : M unit :=
  try_catch
    (o <- lift (userForStorage user) ;;
     setItem CURRENT_USER_KEY (JSON_stringify o))
    (fun _ => ret tt).

Definition getCurrentUser : M value :=
  try_catch
    (user <- getItem CURRENT_USER_KEY ;;
     match user with
     | Some t => if text_truthy t then lift (JSON_parse t) else ret VNull
     | None => ret VNull
     end)
    (fun _ => ret VNull).

Definition logout : M unit :=
  try_catch (removeItem CURRENT_USER_KEY) (fun _ => ret tt).

Definition new_id (r : Readings) : string :=
  "user_" +:+ JSString.of_N (now r) +:+ "_" +:+ JSString.substring 2 8 (random36 r).

Definition newUser (r : Readings) (email password fullName : string)
    (mobileNumber : option string) : StoredUser :=
  {| id := new_id r;
     email := JSString.toLowerCase email;
     password := password;
     fullName := fullName;
     mobileNumber := mobileNumber;
     avatar := Some PLACEHOLDER_AVATAR;
     createdAt := isoNow r |}.

Definition register (r : Readings) (email password fullName : string)
    (mobileNumber : option string) : M value :=
  users <- getStoredUsers ;;
  existingUser <- lift (array_find (email_matches email) users) ;;
  if truthy existingUser
  then throw (Error "User with this email already exists")
  else
    let new := user_object (newUser r email password fullName mobileNumber) in
    users' <- lift (array_push users new) ;;
    saveUsers users' ;;;
    setCurrentUser new ;;;
    ret new.

Definition login (email password : string) : M value :=
  users <- getStoredUsers ;;
  user <- lift (array_find (credentials_match email password) users) ;;
  if negb (truthy user)
  then throw (Error "Invalid email or password")
  else
    setCurrentUser user ;;;
    ret user.

Definition userExists (email : string) : M bool :=
  users <- getStoredUsers ;;
  lift (array_some (email_matches email) users).

(** *** Notions used to state the properties *)

(** The JSON document of a record, and the object [JSON.parse] gives
    back for it (a property that was [undefined] is then absent). *)
Definition user_json (u : StoredUser) : json := to_json (user_object u).
Definition stored_object (u : StoredUser) : value := of_json (user_json u).

(** The stored user list is [us]: the users key holds the JSON text of
    [us]; an absent key or an unreadable string counts as the empty list. *)
Definition holds_users (st : Storage) (us : list StoredUser) : Prop :=
  match items st !! USERS_STORAGE_KEY with
  | Some (Json j) => j = JArr (map user_json us)
  | Some (Raw _) | None => us = []
  end.

(** The session pointer of a user: the projection [setCurrentUser] builds. *)
Definition session_object (u : StoredUser) : value :=
  VObj [ ("id", VStr (id u));
         ("email", VStr (email u));
         ("name", VStr (fullName u));
         ("avatar", opt_str (avatar u));
         ("mobileNumber", opt_str (mobileNumber u)) ].

Definition session_text (u : StoredUser) : text :=
  JSON_stringify (session_object u).

(** The property names of a session pointer, and a text that is a JSON
    object with such properties only: it has no password. *)
Definition SESSION_KEYS : list string :=
  ["id"; "email"; "name"; "avatar"; "mobileNumber"].

Definition session_shaped (t : text) : Prop :=
  exists ps, t = Json (JObj ps) /\
    lookup_prop "password" ps = None /\
    incl (map fst ps) SESSION_KEYS.

(** The browser accepts the write of [t] under [k] in the state [st]. *)
Definition accepted (st : Storage) (k : string) (t : text) : Prop :=
  accepts st (items st) k t = true.

Definition same_email (e : string) (u : StoredUser) : bool :=
  String.eqb (JSString.toLowerCase (email u)) (JSString.toLowerCase e).

Definition same_credentials (e p : string) (u : StoredUser) : bool :=
  same_email e u && String.eqb (password u) p.

End WithFolding.

(** A storage that takes every write, and one that takes none. *)
Definition roomy (m : gmap string text) : Storage :=
  {| items := m; accepts := fun _ _ _ => true |}.
Definition full (m : gmap string text) : Storage :=
  {| items := m; accepts := fun _ _ _ => false |}.

(** The session pointer reflects a user object: [getCurrentUser] returns
    an object with the user's id, email, name, avatar and phone. *)
Definition session_reflects (st : Storage) (user : value) : Prop :=
  exists s,
    fst (getCurrentUser st) = Ok s /\
    get_prop s "id" = get_prop user "id" /\
    get_prop s "email" = get_prop user "email" /\
    get_prop s "name" = get_prop user "fullName" /\
    get_prop s "avatar" = get_prop user "avatar" /\
    get_prop s "mobileNumber" = get_prop user "mobileNumber".

(** A storage whose only entry is the user list [us]. *)
Definition users_entry (us : list StoredUser) : gmap string text :=
  {[ USERS_STORAGE_KEY := Json (JArr (map user_json us)) ]}.

(** Sample data for the closed statements. *)
Definition sample_readings : Readings :=
  {| now := 1700000000000; random36 := "0.k3j2h1abcd";
     isoNow := "2023-11-14T22:13:20.000Z" |}.

Definition other_readings : Readings :=
  {| now := 1700000360000; random36 := "0.z9y8x7wvut";
     isoNow := "2023-11-14T22:19:20.000Z" |}.

Definition alice : StoredUser :=
  newUser (folding := JSString.ascii_folding)
    sample_readings "Alice@Example.com" "s3cret" "Alice" None.

Definition bob : StoredUser :=
  newUser (folding := JSString.ascii_folding)
    other_readings "bob@example.com" "hunter2" "Bob" (Some "9876543210").

End MockAuthService.

(** ** Numbers

    A JavaScript number is a binary64 value, and the kernel's primitive
    floats compute on them as the source does.  To compare a result with
    a product of real numbers, a finite value is read as [m * 2^e]. *)

Module Number.

Definition exact (x : float) : option (Z * Z) :=
  match Prim2SF x with
  | S754_zero _ => Some (0, 0)%Z
  | S754_finite s m e => Some (if s then Z.neg m else Z.pos m, e)
  | _ => None
  end.

(** [r] is [k] times [a], as real numbers. *)
Definition is_product (k : Z) (a r : float) : bool :=
  match exact a, exact r with
  | Some (ma, ea), Some (mr, er) =>
      let e := Z.min ea er in
      (k * ma * 2 ^ (ea - e) =? mr * 2 ^ (er - e))%Z
  | _, _ => false
  end.

(** [Number.isInteger]. *)
Definition isInteger (x : float) : bool :=
  match exact x with
  | Some (m, e) => if (0 <=? e)%Z then true else (m mod 2 ^ (- e) =? 0)%Z
  | None => false
  end.

End Number.

(** ** The payment-gateway adapter *)
Module RazorpayService.

(** What a function of another module, or of the gateway script, throws:
    an instance of [Error] with its message, or some other value. *)
Inductive thrown :=
| ErrorInstance (message : string)
| OtherValue.

(** The state a promise ends in; [Pending] is a promise that is never
    settled. *)
Inductive promise (A : Type) :=
| Resolved (a : A)
| Rejected (t : thrown)
| Pending.
Arguments Resolved {A} a.
Arguments Rejected {A} t.
Arguments Pending {A}.

(** A synchronous call into code this file does not contain. *)
Inductive outcome (A : Type) :=
| Returns (a : A)
| Throws (t : thrown).
Arguments Returns {A} a.
Arguments Throws {A} t.

Record CustomerInfo := {
  name : string;
  email : string;
  contact : string;
}.

Module RazorpayOrderRequest.
Record t := {
  amount : float;
  currency : string;
  receipt : string;
  notes : option (list (string * string));
}.
End RazorpayOrderRequest.

Module RazorpayOrderResponse.
Record t := {
  id : string;
  entity : string;
  amount : float;
  amount_paid : float;
  amount_due : float;
  currency : string;
  receipt : string;
  status : string;
  attempts : N;
  notes : list (string * string);
  created_at : N;
}.
End RazorpayOrderResponse.

Module PaymentResult.
Record t := {
  success : bool;
  transactionId : string;
  razorpayPaymentId : option string;
  razorpayOrderId : option string;
  razorpaySignature : option string;
  paymentMethod : string;
  amount : float;
  timestamp : N;
  errorMessage : option string;
}.
End PaymentResult.

(** The object [getPaymentStatus] returns. *)
Module PaymentStatus.
Record t := {
  id : string;
  status : string;
  amount : float;
  currency : string;
  method : string;
  captured : bool;
  created_at : N;
}.
End PaymentStatus.

(** The argument the gateway passes to [handler]. *)
Record HandlerResponse := {
  razorpay_payment_id : option string;
  razorpay_order_id : option string;
  razorpay_signature : option string;
}.

(** The imports from [../config/razorpay], which is not part of the
    sources at hand: they are parameters of the model. *)
Record Config := {
  RAZORPAY_CONFIG_currency : string;
  generateRazorpayOptions : float -> string -> CustomerInfo -> string -> outcome value;
  validateRazorpayConfig : bool;
}.

(** The first callback the gateway modal invokes. *)
Inductive modal_event :=
| Handler (response : HandlerResponse)
| Ondismiss.

(** What lies outside the program during one call: the readings of
    [Date.now()] and [Math.random().toString(36)] in call order, the
    event of the injected script element ([Some true] for load,
    [Some false] for error, [None] when neither fires), whether
    [new window.Razorpay(..)] and [razorpay.open()] throw, and the
    callback the modal invokes once it is open, if any. *)
Record World := {
  clock : nat -> N;
  random : nat -> string;
  script_event : option bool;
  construct_throws : option thrown;
  open_throws : option thrown;
  modal_callback : option modal_event;
}.

(** What the program does to its surroundings. *)
Inductive effect :=
| Timeout (ms : N)
| AppendScript (src : string)
| NewRazorpay (options : value)
| RazorpayOpen.

Record Page := {
  isRazorpayLoaded : bool;
  effects : list effect;
  clock_reads : nat;
  random_reads : nat;
}.

(** The body of an [async] function: it runs to a value, to an
    exception ([Rejected]) or blocks for ever at an [await] ([Pending]). *)
Definition Async (A : Type) : Type := Page -> promise A * Page.

Definition ret {A} (a : A) : Async A := fun st => (Resolved a, st).
Definition throw {A} (t : thrown) : Async A := fun st => (Rejected t, st).
Definition never {A} : Async A := fun st => (Pending, st).
Definition bind {A B} (c : Async A) (k : A -> Async B) : Async B :=
  fun st =>
    match c st with
    | (Resolved a, st') => k a st'
    | (Rejected t, st') => (Rejected t, st')
    | (Pending, st') => (Pending, st')
    end.
Definition try_catch {A} (c : Async A) (h : thrown -> Async A) : Async A :=
  fun st =>
    match c st with
    | (Rejected t, st') => h t st'
    | r => r
    end.
Definition call {A} (o : outcome A) : Async A :=
  match o with
  | Returns a => ret a
  | Throws t => throw t
  end.

Notation "x <~ c1 ;; c2" := (bind c1 (fun x => c2))
  (at level 100, c1 at next level, right associativity).
Notation "c1 ~;; c2" := (bind c1 (fun _ => c2))
  (at level 100, right associativity).

Definition perform (e : effect) : Async unit :=
  fun st =>
    (Resolved tt,
     {| isRazorpayLoaded := isRazorpayLoaded st;
        effects := effects st ++ [e];
        clock_reads := clock_reads st;
        random_reads := random_reads st |}).

(** [await new Promise(resolve => setTimeout(resolve, ms))]. *)
Definition sleep (ms : N) : Async unit := perform (Timeout ms).

Definition Date_now (w : World) : Async N :=
  fun st =>
    (Resolved (clock w (clock_reads st)),
     {| isRazorpayLoaded := isRazorpayLoaded st;
        effects := effects st;
        clock_reads := S (clock_reads st);
        random_reads := random_reads st |}).

(** [Math.random().toString(36)]. *)
Definition Math_random_36 (w : World) : Async string :=
  fun st =>
    (Resolved (random w (random_reads st)),
     {| isRazorpayLoaded := isRazorpayLoaded st;
        effects := effects st;
        clock_reads := clock_reads st;
        random_reads := S (random_reads st) |}).

Definition get_isRazorpayLoaded : Async bool :=
  fun st => (Resolved (isRazorpayLoaded st), st).

Definition set_isRazorpayLoaded (b : bool) : Async unit :=
  fun st =>
    (Resolved tt,
     {| isRazorpayLoaded := b;
        effects := effects st;
        clock_reads := clock_reads st;
        random_reads := random_reads st |}).

(** [new Promise(executor)]: the executor runs at once, and an exception
    it throws rejects the promise; the constructor itself returns
    normally.  Otherwise the promise ends as [callbacks] say: the part of
    the executor that runs when the outside calls back. *)
Definition new_Promise {A} (executor : Async unit) (callbacks : Async A)
  : Async (promise A) :=
  fun st =>
    match executor st with
    | (Resolved _, st') => let (p, st'') := callbacks st' in (Resolved p, st'')
    | (Rejected t, st') => (Resolved (Rejected t), st')
    | (Pending, st') => (Resolved Pending, st')
    end.

(** [return p] of an [async] function, for a promise [p]: the function's
    own promise ends as [p] does.  No handler of the function sees a
    rejection of [p]. *)
Definition adopt {A} (p : promise A) : Async A := fun st => (p, st).

Definition CHECKOUT_SCRIPT : string := "https://checkout.razorpay.com/v1/checkout.js".

Definition loadRazorpayScript (w : World) : Async bool :=
  loaded <~ get_isRazorpayLoaded ;;
  if loaded then ret true
  else
    p <~ new_Promise
           (perform (AppendScript CHECKOUT_SCRIPT))
           (match script_event w with
            | Some true => set_isRazorpayLoaded true ~;; ret true
            | Some false => ret false
            | None => never
            end) ;;
    adopt p.

Definition createOrder (cfg : Config) (w : World)
    (orderRequest : RazorpayOrderRequest.t) : Async RazorpayOrderResponse.t :=
  if negb (validateRazorpayConfig cfg)
  then throw (ErrorInstance "Razorpay configuration is invalid")
  else
    sleep 1000 ~;;
    t_id <~ Date_now w ;;
    r <~ Math_random_36 w ;;
    t_created <~ Date_now w ;;
    ret {| RazorpayOrderResponse.id :=
             "order_" +:+ JSString.of_N t_id +:+ "_" +:+ JSString.substring 2 8 r;
           RazorpayOrderResponse.entity := "order";
           RazorpayOrderResponse.amount :=
             (RazorpayOrderRequest.amount orderRequest * 100)%float;
           RazorpayOrderResponse.amount_paid := 0%float;
           RazorpayOrderResponse.amount_due :=
             (RazorpayOrderRequest.amount orderRequest * 100)%float;
           RazorpayOrderResponse.currency := RazorpayOrderRequest.currency orderRequest;
           RazorpayOrderResponse.receipt := RazorpayOrderRequest.receipt orderRequest;
           RazorpayOrderResponse.status := "created";
           RazorpayOrderResponse.attempts := 0;
           RazorpayOrderResponse.notes :=
             default [] (RazorpayOrderRequest.notes orderRequest);
           RazorpayOrderResponse.created_at := (t_created / 1000)%N |}.

(** The value the [catch] clause puts into [errorMessage]. *)
Definition message_of (error : thrown) : string :=
  match error with
  | ErrorInstance m => m
  | OtherValue => "UPI payment failed"
  end.

Definition processUPIPayment (cfg : Config) (w : World) (amount : float)
    (customerInfo : CustomerInfo) (orderId : string) : Async PaymentResult.t :=
  returned <~
    try_catch
      (scriptLoaded <~ loadRazorpayScript w ;;
       if negb scriptLoaded
       then throw (ErrorInstance "Failed to load Razorpay payment gateway")
       else
         razorpayOrder <~
           createOrder cfg w
             {| RazorpayOrderRequest.amount := amount;
                RazorpayOrderRequest.currency := RAZORPAY_CONFIG_currency cfg;
                RazorpayOrderRequest.receipt := orderId;
                RazorpayOrderRequest.notes :=
                  Some [ ("payment_method", "upi");
                         ("customer_name", name customerInfo) ] |} ;;
         options <~
           call (generateRazorpayOptions cfg amount
                   (RazorpayOrderResponse.id razorpayOrder) customerInfo "upi") ;;
         new_Promise
           (perform (NewRazorpay options) ~;;
            match construct_throws w with
            | Some t => throw t
            | None =>
                perform RazorpayOpen ~;;
                match open_throws w with
                | Some t => throw t
                | None => ret tt
                end
            end)
           (match modal_callback w with
            | Some (Handler response) =>
                t_id <~ Date_now w ;;
                r <~ Math_random_36 w ;;
                t_stamp <~ Date_now w ;;
                ret {| PaymentResult.success := true;
                       PaymentResult.transactionId :=
                         "UPI_" +:+ JSString.of_N t_id +:+ "_"
                         +:+ JSString.toUpperCase (JSString.substring 2 8 r);
                       PaymentResult.razorpayPaymentId := razorpay_payment_id response;
                       PaymentResult.razorpayOrderId := razorpay_order_id response;
                       PaymentResult.razorpaySignature := razorpay_signature response;
                       PaymentResult.paymentMethod := "UPI";
                       PaymentResult.amount := amount;
                       PaymentResult.timestamp := t_stamp;
                       PaymentResult.errorMessage := None |}
            | Some Ondismiss =>
                t_id <~ Date_now w ;;
                t_stamp <~ Date_now w ;;
                ret {| PaymentResult.success := false;
                       PaymentResult.transactionId :=
                         "UPI_CANCELLED_" +:+ JSString.of_N t_id;
                       PaymentResult.razorpayPaymentId := None;
                       PaymentResult.razorpayOrderId := None;
                       PaymentResult.razorpaySignature := None;
                       PaymentResult.paymentMethod := "UPI";
                       PaymentResult.amount := amount;
                       PaymentResult.timestamp := t_stamp;
                       PaymentResult.errorMessage := Some "Payment cancelled by user" |}
            | None => never
            end))
      (fun error =>
         t_id <~ Date_now w ;;
         t_stamp <~ Date_now w ;;
         ret (Resolved
                {| PaymentResult.success := false;
                   PaymentResult.transactionId := "UPI_FAILED_" +:+ JSString.of_N t_id;
                   PaymentResult.razorpayPaymentId := None;
                   PaymentResult.razorpayOrderId := None;
                   PaymentResult.razorpaySignature := None;
                   PaymentResult.paymentMethod := "UPI";
                   PaymentResult.amount := amount;
                   PaymentResult.timestamp := t_stamp;
                   PaymentResult.errorMessage := Some (message_of error) |})) ;;
  adopt returned.

Definition processCODPayment (w : World) (amount : float)
    (customerInfo : CustomerInfo) (orderId : string) : Async PaymentResult.t :=
  sleep 1000 ~;;
  t_id <~ Date_now w ;;
  r <~ Math_random_36 w ;;
  t_stamp <~ Date_now w ;;
  ret {| PaymentResult.success := true;
         PaymentResult.transactionId :=
           "COD_" +:+ JSString.of_N t_id +:+ "_"
           +:+ JSString.toUpperCase (JSString.substring 2 8 r);
         PaymentResult.razorpayPaymentId := None;
         PaymentResult.razorpayOrderId := None;
         PaymentResult.razorpaySignature := None;
         PaymentResult.paymentMethod := "Cash on Delivery";
         PaymentResult.amount := amount;
         PaymentResult.timestamp := t_stamp;
         PaymentResult.errorMessage := None |}.

Definition getPaymentStatus (w : World) (paymentId : string) : Async PaymentStatus.t :=
  sleep 500 ~;;
  t <~ Date_now w ;;
  ret {| PaymentStatus.id := paymentId;
         PaymentStatus.status := "captured";
         PaymentStatus.amount := 100000%float;
         PaymentStatus.currency := "INR";
         PaymentStatus.method := "upi";
         PaymentStatus.captured := true;
         PaymentStatus.created_at := (t / 1000)%N |}.

(** *** Notions used to state the properties *)

(** The script is loaded already or loads now, the configuration check
    passes and the options are produced: the call gets as far as the
    gateway modal. *)
Definition reaches_modal (cfg : Config) (w : World) (amount : float)
    (customerInfo : CustomerInfo) (st : Page) : Prop :=
  (isRazorpayLoaded st = true \/ script_event w = Some true) /\
  validateRazorpayConfig cfg = true /\
  forall order_id, exists options,
    generateRazorpayOptions cfg amount order_id customerInfo "upi" = Returns options.

(** *** Sample data for the closed statements *)

Definition sample_config : Config :=
  {| RAZORPAY_CONFIG_currency := "INR";
     generateRazorpayOptions :=
       fun _ order_id _ method =>
         Returns (VObj [ ("order_id", VStr order_id); ("method", VStr method) ]);
     validateRazorpayConfig := true |}.

Definition sample_customer : CustomerInfo :=
  {| name := "Alice"; email := "alice@example.com"; contact := "9876543210" |}.

(** A world in which the script loads; the arguments say whether the
    gateway constructor and [open] throw and which callback the modal
    invokes. *)
Definition sample_world (c o : option thrown) (cb : option modal_event) : World :=
  {| clock := fun n => (1700000000000 + 7 * N.of_nat n)%N;
     random := fun _ => "0.k3j2h1abcd";
     script_event := Some true;
     construct_throws := c;
     open_throws := o;
     modal_callback := cb |}.

Definition fresh_page : Page :=
  {| isRazorpayLoaded := false; effects := []; clock_reads := 0; random_reads := 0 |}.

End RazorpayService.

(** ** The countdown of the QR view *)
Module StreamlinedUPIPayment.

Inductive UPIPaymentMode := selection | apps | qr.

(** The view-local state the countdown touches, and whether the interval
    of the effect is running. *)
Record State := {
  paymentMode : UPIPaymentMode;
  timer : Z;
  isExpired : bool;
  interval : bool;
}.

(** [useState] initial values; no effect has run an interval yet. *)
Definition initial : State :=
  {| paymentMode := selection; timer := 180; isExpired := false; interval := false |}.

Definition mode_eqb (a b : UPIPaymentMode) : bool :=
  match a, b with
  | selection, selection | apps, apps | qr, qr => true
  | _, _ => false
  end.

(** The callback of [setInterval], i.e. the updater given to [setTimer]
    together with what it does on expiry.  A cleared interval never
    calls back. *)
Definition tick (s : State) : State :=
  if interval s then
    if (timer s <=? 1)%Z
    then {| paymentMode := paymentMode s; timer := 0;
            isExpired := true; interval := false |}
    else {| paymentMode := paymentMode s; timer := timer s - 1;
            isExpired := isExpired s; interval := true |}
  else s.

(** [setPaymentMode(m)]: when the mode changes, the effect's cleanup
    clears the interval and the effect runs again, starting an interval
    in QR mode only. *)
Definition setPaymentMode (m : UPIPaymentMode) (s : State) : State :=
  if mode_eqb m (paymentMode s) then s
  else {| paymentMode := m; timer := timer s; isExpired := isExpired s;
          interval := mode_eqb m qr |}.

Definition resetToSelection (s : State) : State :=
  {| paymentMode := selection; timer := 180; isExpired := false; interval := false |}.

(** [n] seconds pass: the interval calls back [n] times. *)
Fixpoint seconds (n : nat) (s : State) : State :=
  match n with
  | O => s
  | S n' => seconds n' (tick s)
  end.

End StreamlinedUPIPayment.

(** ** The handlers and the screens of the UPI view *)
Module UPIPaymentView.

Import RazorpayService StreamlinedUPIPayment.

Record UPIApp := {
  app_name : string;
  icon : string;
  brandColor : string;
  description : string;
}.

Record PaymentSuccessResult := {
  success : bool;
  transactionId : string;
  paymentMethod : string;
  amount : float;
  upiId : option string;
  orderId : string;
  timestamp : N;
}.

(** The two callback props; a call of one of them is recorded, in call
    order. *)
Inductive callback :=
| onPaymentSuccess (result : PaymentSuccessResult)
| onPaymentError (error : string).

(** The props are the parent's functions: called with an argument, each
    either returns or throws. *)
Record Props := {
  onPaymentSuccess_throws : PaymentSuccessResult -> option thrown;
  onPaymentError_throws : string -> option thrown;
}.

Definition throws (props : Props) (c : callback) : option thrown :=
  match c with
  | onPaymentSuccess result => onPaymentSuccess_throws props result
  | onPaymentError error => onPaymentError_throws props error
  end.

Record View := {
  isProcessing : bool;
  calls : list callback;
}.

Definition setIsProcessing (b : bool) (v : View) : View :=
  {| isProcessing := b; calls := calls v |}.

(** The constant [customerInfo] of the component. *)
Definition customerInfo : CustomerInfo :=
  {| name := "Test Customer"; email := "test@example.com"; contact := "9999999999" |}.

(** [a || b] for an optional string [a]: [undefined] and the empty string
    are falsy. *)
Definition or_else (a : option string) (b : string) : string :=
  match a with
  | Some s => if String.eqb s "" then b else s
  | None => b
  end.

(** An async handler of the component runs on the view and on the page. *)
Definition UI (A : Type) : Type := View -> Page -> promise A * View * Page.

Definition lift {A} (c : Async A) : UI A :=
  fun v st => let (p, st') := c st in (p, v, st').

Definition update (f : View -> View) : UI unit :=
  fun v st => (Resolved tt, f v, st).

Definition ui_bind {A B} (c : UI A) (k : A -> UI B) : UI B :=
  fun v st =>
    match c v st with
    | (Resolved a, v', st') => k a v' st'
    | (Rejected t, v', st') => (Rejected t, v', st')
    | (Pending, v', st') => (Pending, v', st')
    end.

Definition ui_try_catch {A} (c : UI A) (h : thrown -> UI A) : UI A :=
  fun v st =>
    match c v st with
    | (Rejected t, v', st') => h t v' st'
    | r => r
    end.

(** [try { c } .. finally { setState(..) }]: the clause runs when [c]
    settles, whether it returned or threw, and never while an awaited
    promise of [c] is pending. *)
Definition finally {A} (c : UI A) (f : View -> View) : UI A :=
  fun v st =>
    match c v st with
    | (Pending, v', st') => (Pending, v', st')
    | (p, v', st') => (p, f v', st')
    end.

Notation "x <~~ c1 ;; c2" := (ui_bind c1 (fun x => c2))
  (at level 100, c1 at next level, right associativity).
Notation "c1 ~~;; c2" := (ui_bind c1 (fun _ => c2))
  (at level 100, right associativity).

(** A call of a prop: the call is made, and it returns or throws. *)
Definition invoke (props : Props) (c : callback) : UI unit :=
  fun v st =>
    (match throws props c with
     | Some t => Rejected t
     | None => Resolved tt
     end,
     {| isProcessing := isProcessing v; calls := calls v ++ [c] |},
     st).

Definition handleUPIAppClick (props : Props) (cfg : Config) (w : World)
    (amount : float) (orderId : string) (app : UPIApp) : UI unit :=
  update (setIsProcessing true) ~~;;
  finally
    (ui_try_catch
       (result <~~ lift (processUPIPayment cfg w amount customerInfo orderId) ;;
        if PaymentResult.success result then
          t <~~ lift (Date_now w) ;;
          invoke props
            (onPaymentSuccess
               {| success := true;
                  transactionId := PaymentResult.transactionId result;
                  paymentMethod := app_name app +:+ " (via Razorpay UPI)";
                  amount := amount;
                  upiId := None;
                  orderId := orderId;
                  timestamp := t |})
        else
          invoke props
            (onPaymentError
               (or_else (PaymentResult.errorMessage result)
                  (app_name app +:+ " payment failed"))))
       (fun err =>
          invoke props
            (onPaymentError ("Failed to process " +:+ app_name app +:+ " payment"))))
    (setIsProcessing false).

(** [handleQRPaymentComplete]; [upi] is the configured test UPI id. *)
Definition handleQRPaymentComplete (props : Props) (w : World) (amount : float)
    (orderId upi : string) : UI unit :=
  update (setIsProcessing true) ~~;;
  finally
    (ui_try_catch
       (lift (sleep 2000) ~~;;
        t_id <~~ lift (Date_now w) ;;
        r <~~ lift (Math_random_36 w) ;;
        t_stamp <~~ lift (Date_now w) ;;
        invoke props
          (onPaymentSuccess
             {| success := true;
                transactionId :=
                  "RZP_QR_" +:+ JSString.of_N t_id +:+ "_"
                  +:+ JSString.toUpperCase (JSString.substring 2 8 r);
                paymentMethod := "UPI via Razorpay QR";
                amount := amount;
                upiId := Some upi;
                orderId := orderId;
                timestamp := t_stamp |}))
       (fun err =>
          invoke props
            (onPaymentError "Failed to verify QR payment. Please contact support.")))
    (setIsProcessing false).

(** The calls a handler makes when its [try] block ends in the call [c] of
    a prop and its [catch] clause is [onPaymentError(message)]: the call
    [c], and the call of the [catch] clause when [c] threw. *)
Definition tried (props : Props) (c : callback) (message : string) : list callback :=
  c :: match throws props c with
       | Some _ => [onPaymentError message]
       | None => []
       end.

(** What the handler's promise does then: it rejects only when the call
    of the [catch] clause threw as well. *)
Definition settles (props : Props) (c : callback) (message : string) : promise unit :=
  match throws props c with
  | None => Resolved tt
  | Some _ =>
      match throws props (onPaymentError message) with
      | None => Resolved tt
      | Some t => Rejected t
      end
  end.

(** [s.padStart(n, c)] for a one-character pad string. *)
Fixpoint replicate_char (n : nat) (c : ascii) : string :=
  match n with
  | O => EmptyString
  | S n' => String c (replicate_char n' c)
  end.

Definition padStart (n : nat) (c : ascii) (s : string) : string :=
  replicate_char (n - String.length s) c +:+ s.

(** [formatTime] on a whole number of seconds: [Math.floor] of the
    quotient, the remainder with the sign of the dividend.  The source
    computes on binary64 numbers; for whole numbers from 0 up to 2^53 the
    quotient's floor and the remainder are those of the integers, and both
    print in plain decimal, which is what this definition gives. *)
Definition formatTime (seconds : Z) : string :=
  let mins := (seconds / 60)%Z in
  let secs := Z.rem seconds 60 in
  pretty mins +:+ ":" +:+ padStart 2 "0" (pretty secs).

(** The seconds part of the display, for a remainder [k] below 60. *)
Definition two_digits (k : nat) : string := padStart 2 "0" (pretty (Z.of_nat k)).

(** What the user or the interval can do.  A button acts only on the
    screen that renders it: the two choices on the selection screen, Back
    on the apps and QR screens (the QR screen's 'Generate New QR Code' is
    the same handler). *)
Inductive action :=
| ChooseApps
| ChooseQR
| Back
| IntervalFires.

Definition act (a : action) (s : State) : State :=
  match a, paymentMode s with
  | ChooseApps, selection => setPaymentMode apps s
  | ChooseQR, selection => setPaymentMode qr s
  | Back, (apps | qr) => resetToSelection s
  | IntervalFires, _ => tick s
  | _, _ => s
  end.

Definition run (acts : list action) (s : State) : State :=
  fold_left (fun s a => act a s) acts s.

(** What holds of the state on every screen. *)
Definition consistent (s : State) : Prop :=
  match paymentMode s with
  | qr =>
      (interval s = true /\ isExpired s = false /\ (1 <= timer s <= 180)%Z) \/
      (interval s = false /\ isExpired s = true /\ timer s = 0%Z)
  | _ => interval s = false /\ isExpired s = false /\ timer s = 180%Z
  end.

(** Sample data for the closed statements. *)
Definition google_pay : UPIApp :=
  {| app_name := "Google Pay"; icon := "G"; brandColor := "bg-blue-600";
     description := "Pay securely with Google Pay" |}.

Definition idle : View := {| isProcessing := false; calls := [] |}.

(** Props that return, and props that throw whatever they are called
    with. *)
Definition returning : Props :=
  {| onPaymentSuccess_throws := fun _ => None;
     onPaymentError_throws := fun _ => None |}.

Definition throwing : Props :=
  {| onPaymentSuccess_throws := fun _ => Some (ErrorInstance "parent failed");
     onPaymentError_throws := fun _ => Some (ErrorInstance "parent failed") |}.

End UPIPaymentView.

(** ** Further notions for the authentication store *)
Module MockAuthNotions.

Import MockAuthService.

(** No two records of the list have the same email up to letter case. *)
Definition emails_unique {folding : JSString.CaseFolding} (us : list StoredUser)
  : Prop :=
  NoDup (map (fun u => JSString.toLowerCase (email u)) us).

Definition is_array (j : json) : bool :=
  match j with
  | JArr _ => true
  | _ => false
  end.

End MockAuthNotions.

(** * Properties *)

(** ** Strings and JSON *)
Section Strings.

Lemma ascii_lower_char_idem (c : ascii) :
  JSString.ascii_lower_char (JSString.ascii_lower_char c) = JSString.ascii_lower_char c.
Proof.
  destruct c as [[] [] [] [] [] [] [] []]; vm_compute; reflexivity.
Qed.

Lemma ascii_folding_idempotent : JSString.idempotent JSString.ascii_folding.
Proof.
  intros s. unfold JSString.toLowerCase, JSString.ascii_folding.
  induction s as [|c s IH]; simpl; [reflexivity|].
  rewrite ascii_lower_char_idem, IH. reflexivity.
Qed.

End Strings.

Section Json.

Lemma to_json_VObj (ps : list (string * value)) :
  to_json (VObj ps) = JObj (to_json_props ps).
Proof. reflexivity. Qed.

Lemma of_json_defined (j : json) : of_json j <> VUndefined.
Proof. destruct j; discriminate. Qed.

(** Serialising a parsed document gives the document back. *)
Lemma to_json_of_json : forall j : json, to_json (of_json j) = j.
Proof.
  fix IH 1. intros [ | b | n | s | l | ps]; try reflexivity.
  - cbn [of_json to_json]. f_equal.
    induction l as [|x l IHl]; [reflexivity|].
    cbn [map]. rewrite IH, IHl. reflexivity.
  - cbn [of_json]. rewrite to_json_VObj. f_equal.
    induction ps as [|[k v] ps IHps]; [reflexivity|].
    cbn [map to_json_props fst snd].
    pose proof (of_json_defined v) as Hv. pose proof (IH v) as Hr.
    destruct (of_json v); try congruence; rewrite <- Hr, IHps; reflexivity.
Qed.

Lemma to_json_VArr_app (l : list value) (x : value) :
  to_json (VArr (l ++ [x])) = JArr (map to_json l ++ [to_json x]).
Proof. cbn [to_json]. rewrite map_app. reflexivity. Qed.

End Json.

(** ** The storage monad *)
Section StorageRuns.

Import MockAuthService.

Lemma users_key_neq_session_key : USERS_STORAGE_KEY <> CURRENT_USER_KEY.
Proof. discriminate. Qed.

Lemma put_accepted k t st :
  accepted st k t -> items (put k t st) = <[k := t]> (items st).
Proof. unfold accepted, put. intros ->. reflexivity. Qed.

Lemma put_lookup_other k k' t st :
  k <> k' -> items (put k t st) !! k' = items st !! k'.
Proof.
  intros Hne. unfold put. destruct (accepts _ _ _ _); [|reflexivity].
  cbn. apply lookup_insert_ne. exact Hne.
Qed.

Lemma put_cases k t st :
  put k t st = st \/ items (put k t st) = <[k := t]> (items st).
Proof.
  unfold put. destruct (accepts _ _ _ _); [right; reflexivity | left; reflexivity].
Qed.

Lemma saveUsers_run (users : value) (st : Storage) :
  saveUsers users st = (Ok tt, put USERS_STORAGE_KEY (JSON_stringify users) st).
Proof.
  unfold saveUsers, try_catch, setItem, put.
  destruct (accepts _ _ _ _); reflexivity.
Qed.

End StorageRuns.

(** ** The mock authentication store *)
Section MockAuth.

Import MockAuthService.

Context {folding : JSString.CaseFolding}.

Lemma email_matches_stored (e : string) (u : StoredUser) :
  email_matches e (stored_object u) = Ok (same_email e u).
Proof. reflexivity. Qed.

Lemma credentials_match_stored (e p : string) (u : StoredUser) :
  credentials_match e p (stored_object u) = Ok (same_credentials e p u).
Proof.
  unfold credentials_match. rewrite email_matches_stored.
  unfold same_credentials. destruct (same_email e u); reflexivity.
Qed.

Lemma stored_object_truthy (u : StoredUser) : truthy (stored_object u) = true.
Proof. reflexivity. Qed.

(** [find] over the parsed list is [List.find] over the records. *)
Lemma find_stored (cb : value -> result bool) (f : StoredUser -> bool)
    (us : list StoredUser) :
  (forall u, cb (stored_object u) = Ok (f u)) ->
  find cb (map stored_object us) =
  Ok (from_option stored_object VUndefined (List.find f us)).
Proof.
  intros Hcb. induction us as [|u us IH]; [reflexivity|].
  cbn [map find List.find]. rewrite Hcb.
  destruct (f u); [reflexivity | exact IH].
Qed.

Lemma some_stored (cb : value -> result bool) (f : StoredUser -> bool)
    (us : list StoredUser) :
  (forall u, cb (stored_object u) = Ok (f u)) ->
  some cb (map stored_object us) = Ok (existsb f us).
Proof.
  intros Hcb. induction us as [|u us IH]; [reflexivity|].
  cbn [map some existsb]. rewrite Hcb.
  destruct (f u); [reflexivity | exact IH].
Qed.

Lemma find_none_iff (f : StoredUser -> bool) (us : list StoredUser) :
  List.find f us = None <-> ~ exists u, In u us /\ f u = true.
Proof.
  split.
  - intros Hn [u [Hin Hf]]. pose proof (find_none f us Hn u Hin). congruence.
  - intros Hno. destruct (List.find f us) as [u|] eqn:E; [|reflexivity].
    apply find_some in E. exfalso. apply Hno. exists u. exact E.
Qed.

Lemma userForStorage_user_object (u : StoredUser) :
  userForStorage (user_object u) = Ok (session_object u).
Proof. reflexivity. Qed.

Lemma userForStorage_stored_object (u : StoredUser) :
  userForStorage (stored_object u) = Ok (session_object u).
Proof. destruct u as [i e p f [m|] [a|] c]; reflexivity. Qed.

Lemma setCurrentUser_run (user : value) (u : StoredUser) (st : Storage) :
  userForStorage user = Ok (session_object u) ->
  setCurrentUser user st = (Ok tt, put CURRENT_USER_KEY (session_text u) st).
Proof.
  intros Hp. unfold setCurrentUser, try_catch, LocalStorage.bind, lift.
  rewrite Hp. unfold setItem, put. fold (session_text u).
  destruct (accepts _ _ _ _); reflexivity.
Qed.

Lemma getCurrentUser_run (st : Storage) :
  getCurrentUser st =
  (Ok match items st !! CURRENT_USER_KEY with
      | Some (Json j) => of_json j
      | Some (Raw _) | None => VNull
      end, st).
Proof.
  unfold getCurrentUser, try_catch, LocalStorage.bind, getItem. cbn.
  destruct (items st !! CURRENT_USER_KEY) as [[j|s]|]; cbn; try reflexivity.
  unfold lift, LocalStorage.ret. destruct (negb (s =? "")%string); reflexivity.
Qed.

Lemma logout_run (st : Storage) :
  logout st = (Ok tt, with_items st (delete CURRENT_USER_KEY (items st))).
Proof. reflexivity. Qed.

Lemma stringify_users_app (us : list StoredUser) (new : StoredUser) :
  JSON_stringify (VArr (map stored_object us ++ [user_object new])) =
  Json (JArr (map user_json (us ++ [new]))).
Proof.
  unfold JSON_stringify. rewrite to_json_VArr_app. do 2 f_equal.
  rewrite map_app, map_map. cbn [map]. f_equal.
  apply map_ext. intros u. unfold stored_object. apply to_json_of_json.
Qed.

End MockAuth.

(** What the operations compute on a storage whose user list is [us]. *)
Section StoredList.

Import MockAuthService.

Context {folding : JSString.CaseFolding}.

Context (st : Storage) (us : list StoredUser).
Hypothesis Hst : holds_users st us.

Lemma getStoredUsers_run :
  getStoredUsers st = (Ok (VArr (map stored_object us)), st).
Proof.
  revert Hst. unfold holds_users, getStoredUsers, try_catch, LocalStorage.bind, getItem.
  cbn. destruct (items st !! USERS_STORAGE_KEY) as [[j|s]|].
  - intros ->. cbn. unfold stored_object. rewrite map_map. reflexivity.
  - intros ->. cbn. unfold lift, LocalStorage.ret.
    destruct (negb (s =? "")%string); reflexivity.
  - intros ->. reflexivity.
Qed.

Lemma register_run (r : Readings) (e p f : string) (m : option string) :
  register r e p f m st =
  if existsb (same_email e) us
  then (Throw (Error "User with this email already exists"), st)
  else
    let new := newUser r e p f m in
    (Ok (user_object new),
     put CURRENT_USER_KEY (session_text new)
       (put USERS_STORAGE_KEY (Json (JArr (map user_json (us ++ [new])))) st)).
Proof.
  unfold register, LocalStorage.bind.
  rewrite getStoredUsers_run.
  unfold lift, array_find.
  rewrite (find_stored _ (same_email e) us (email_matches_stored e)).
  destruct (List.find (same_email e) us) as [u|] eqn:E.
  - assert (existsb (same_email e) us = true) as ->.
    { apply existsb_exists. exists u. apply find_some in E. exact E. }
    reflexivity.
  - assert (existsb (same_email e) us = false) as ->.
    { apply not_true_is_false. intros Hex. apply existsb_exists in Hex.
      apply find_none_iff in E. apply E. destruct Hex as [u Hu]. exists u. exact Hu. }
    cbn [from_option truthy array_push].
    rewrite saveUsers_run, stringify_users_app.
    rewrite (setCurrentUser_run _ _ _ (userForStorage_user_object _)).
    reflexivity.
Qed.

Lemma login_run (e p : string) :
  login e p st =
  match List.find (same_credentials e p) us with
  | Some u => (Ok (stored_object u), put CURRENT_USER_KEY (session_text u) st)
  | None => (Throw (Error "Invalid email or password"), st)
  end.
Proof.
  unfold login, LocalStorage.bind.
  rewrite getStoredUsers_run.
  unfold lift, array_find.
  rewrite (find_stored _ (same_credentials e p) us (credentials_match_stored e p)).
  destruct (List.find (same_credentials e p) us) as [u|]; [|reflexivity].
  cbn [from_option]. rewrite stored_object_truthy. cbn [negb].
  rewrite (setCurrentUser_run _ _ _ (userForStorage_stored_object u)).
  reflexivity.
Qed.

Lemma userExists_run (e : string) :
  userExists e st = (Ok (existsb (same_email e) us), st).
Proof.
  unfold userExists, LocalStorage.bind.
  rewrite getStoredUsers_run.
  unfold lift, array_some.
  rewrite (some_stored _ (same_email e) us (email_matches_stored e)).
  reflexivity.
Qed.

End StoredList.

(** ** What the writes leave in the storage *)
Section StorageFrame.

Import MockAuthService.

Context {folding : JSString.CaseFolding}.

Lemma same_email_true (e : string) (u : StoredUser) :
  same_email e u = true <->
  JSString.toLowerCase (email u) = JSString.toLowerCase e.
Proof. unfold same_email. apply String.eqb_eq. Qed.

Lemma same_credentials_true (e p : string) (u : StoredUser) :
  same_credentials e p u = true <->
  JSString.toLowerCase (email u) = JSString.toLowerCase e /\ password u = p.
Proof.
  unfold same_credentials. rewrite andb_true_iff, same_email_true, String.eqb_eq.
  reflexivity.
Qed.

Lemma existsb_same_email (e : string) (us : list StoredUser) :
  existsb (same_email e) us = true <->
  exists u, In u us /\ JSString.toLowerCase (email u) = JSString.toLowerCase e.
Proof.
  rewrite existsb_exists. split; intros [u [Hin Hu]]; exists u; split; try exact Hin;
    apply same_email_true; exact Hu.
Qed.

Lemma holds_users_put_users (st : Storage) (us' : list StoredUser) :
  accepted st USERS_STORAGE_KEY (Json (JArr (map user_json us'))) ->
  holds_users (put USERS_STORAGE_KEY (Json (JArr (map user_json us'))) st) us'.
Proof.
  intros Hacc. unfold holds_users. rewrite (put_accepted _ _ _ Hacc).
  rewrite lookup_insert_eq. reflexivity.
Qed.

Lemma holds_users_put_refused (st : Storage) (us : list StoredUser) (t : text) :
  ~ accepted st USERS_STORAGE_KEY t ->
  holds_users st us -> holds_users (put USERS_STORAGE_KEY t st) us.
Proof.
  unfold accepted, put. intros Hacc Hst.
  destruct (accepts _ _ _ _); [congruence | exact Hst].
Qed.

Lemma holds_users_put_session (st : Storage) (us : list StoredUser) (t : text) :
  holds_users st us -> holds_users (put CURRENT_USER_KEY t st) us.
Proof.
  unfold holds_users. rewrite put_lookup_other; [tauto|].
  intros H. symmetry in H. revert H. apply users_key_neq_session_key.
Qed.

Lemma session_after_put (st : Storage) (u : StoredUser) :
  accepted st CURRENT_USER_KEY (session_text u) ->
  items (put CURRENT_USER_KEY (session_text u) st) !! CURRENT_USER_KEY
  = Some (session_text u).
Proof.
  intros Hacc. rewrite (put_accepted _ _ _ Hacc). apply lookup_insert_eq.
Qed.

End StorageFrame.

(** ** Registration and login *)
Section Registration.

Import MockAuthService.

Context {folding : JSString.CaseFolding}.

(** C1, as the code has it.  For a stored list [us], [register] throws
    'User with this email already exists' exactly when some stored email
    equals the given one after lower-casing, and then writes nothing.
    Otherwise it returns the new record (generated id, lower-cased email,
    fixed placeholder avatar) without throwing; the record is appended to
    the stored list when the browser accepts the write of the list, the
    list stays as it was when the write is refused, and the session of
    the new user is stored when the browser accepts that write.  After a
    registration whose list write was accepted, registering an email that
    differs at most in letter case fails (lower-casing a lower-cased
    string changing nothing).  All this for whatever [toLowerCase] folds. *)
Theorem register_fails_iff_email_taken (st : Storage) (us : list StoredUser)
    (r : Readings) (e p f : string) (m : option string) :
  holds_users st us ->
  let new := newUser r e p f m in
  let res := fst (register r e p f m st) in
  let st' := snd (register r e p f m st) in
  let users_text := Json (JArr (map user_json (us ++ [new]))) in
  let taken :=
    exists u, In u us /\ JSString.toLowerCase (email u) = JSString.toLowerCase e in
  (res = Throw (Error "User with this email already exists") <-> taken) /\
  (taken -> st' = st) /\
  (~ taken ->
     res = Ok (user_object new) /\
     id new = new_id r /\
     email new = JSString.toLowerCase e /\
     avatar new = Some PLACEHOLDER_AVATAR /\
     (accepted st USERS_STORAGE_KEY users_text -> holds_users st' (us ++ [new])) /\
     (~ accepted st USERS_STORAGE_KEY users_text -> holds_users st' us) /\
     (accepted (put USERS_STORAGE_KEY users_text st) CURRENT_USER_KEY (session_text new) ->
        items st' !! CURRENT_USER_KEY = Some (session_text new) /\
        fst (getCurrentUser st') = Ok (of_json (to_json (session_object new)))) /\
     (JSString.idempotent folding ->
      accepted st USERS_STORAGE_KEY users_text ->
        forall (r2 : Readings) (e2 p2 f2 : string) (m2 : option string),
          JSString.toLowerCase e2 = JSString.toLowerCase e ->
          fst (register r2 e2 p2 f2 m2 st')
          = Throw (Error "User with this email already exists"))).
Proof.
  intros Hst new res st' users_text taken.
  assert (Hrun := register_run st us Hst r e p f m).
  fold new in Hrun. cbv zeta in Hrun. fold users_text in Hrun.
  assert (Htaken : existsb (same_email e) us = true <-> taken)
    by apply existsb_same_email.
  destruct (existsb (same_email e) us) eqn:Hex.
  - assert (Ht : taken) by (apply Htaken; reflexivity).
    subst res st'. rewrite Hrun. cbn [fst snd].
    split; [tauto|]. split; [reflexivity|]. tauto.
  - assert (Hnt : ~ taken) by (intros Ht; apply Htaken in Ht; discriminate).
    subst res st'. rewrite Hrun. cbn [fst snd].
    split; [split; [discriminate | tauto]|]. split; [tauto|].
    intros _. split; [reflexivity|]. do 3 (split; [reflexivity|]).
    split; [|split; [|split]].
    + intros Hacc. apply holds_users_put_session, holds_users_put_users, Hacc.
    + intros Hacc. apply holds_users_put_session, holds_users_put_refused; assumption.
    + intros Hacc. pose proof (session_after_put _ _ Hacc) as Hs. split; [exact Hs|].
      rewrite getCurrentUser_run. cbn [fst]. rewrite Hs. reflexivity.
    + intros Hidem Hacc r2 e2 p2 f2 m2 He.
      assert (Hst2 : holds_users
                (put CURRENT_USER_KEY (session_text new)
                   (put USERS_STORAGE_KEY users_text st)) (us ++ [new]))
        by (apply holds_users_put_session, holds_users_put_users, Hacc).
      rewrite (register_run _ _ Hst2 r2 e2 p2 f2 m2).
      assert (existsb (same_email e2) (us ++ [new]) = true) as ->; [|reflexivity].
      apply existsb_same_email. exists new. split; [apply in_or_app; right; left; reflexivity|].
      subst new. cbn [email newUser]. rewrite Hidem. symmetry. exact He.
Qed.

End Registration.

(** The closed statements, with the folding of A-Z. *)
Section RegistrationClosed.

Import MockAuthService.

#[local] Existing Instance JSString.ascii_folding.

(** The theorem at the first registration in an empty, roomy storage. *)
Lemma register_fails_iff_email_taken_witness :
  holds_users (roomy ∅) [] /\
  fst (register sample_readings "ALICE@example.COM" "other" "Al" None
         (snd (register sample_readings "Alice@Example.com" "s3cret" "Alice" None
                 (roomy ∅))))
  = Throw (Error "User with this email already exists").
Proof.
  split; [reflexivity|].
  pose proof (register_fails_iff_email_taken (roomy ∅) [] sample_readings
                "Alice@Example.com" "s3cret" "Alice" None eq_refl) as H.
  cbv zeta in H. destruct H as (_ & _ & H).
  assert (Hfree : ~ exists u : StoredUser,
             In u [] /\ JSString.toLowerCase (email u)
                        = JSString.toLowerCase "Alice@Example.com")
    by (intros [u [[] _]]).
  destruct (H Hfree) as (_ & _ & _ & _ & _ & _ & _ & Htwice).
  apply Htwice; [apply ascii_folding_idempotent | reflexivity | reflexivity].
Defined.

(** C1 as stated fails where the browser refuses the writes: no stored
    email matches and [register] returns the new record, yet nothing is
    appended to the stored list and no session is established. *)
Lemma register_refused_write_appends_nothing :
  let st := full ∅ in
  let run := register sample_readings "Alice@Example.com" "s3cret" "Alice" None st in
  holds_users st [] /\
  fst run = Ok (user_object alice) /\
  holds_users (snd run) [] /\
  ~ holds_users (snd run) ([] ++ [alice]) /\
  items (snd run) !! CURRENT_USER_KEY = None /\
  fst (getCurrentUser (snd run)) = Ok VNull.
Proof.
  cbv zeta. repeat split; try reflexivity. discriminate.
Qed.

(** What has been said is about lists of user records.  A stored array
    with a record whose email is not a string makes the callback of
    [find] throw, and [register] with it. *)
Example register_on_ill_typed_record :
  fst (register sample_readings "alice@example.com" "s3cret" "Alice" None
         (roomy {[ USERS_STORAGE_KEY := Json (JArr [JObj [("email", JNum 5)]]) ]}))
  = Throw TypeError.
Proof. reflexivity. Qed.

End RegistrationClosed.

Section Login.

Import MockAuthService.

Context {folding : JSString.CaseFolding}.

(** C2, as the code has it.  For a stored list [us], [login] succeeds
    exactly when some stored record has the given email up to letter case
    and the given password character for character; otherwise it throws
    'Invalid email or password' and writes nothing.  On success it returns
    the first such record, leaves the stored list alone, and the session
    of that record is stored when the browser accepts the write. *)
Theorem login_succeeds_iff_credentials_match (st : Storage)
    (us : list StoredUser) (e p : string) :
  holds_users st us ->
  let res := fst (login e p st) in
  let st' := snd (login e p st) in
  let matching :=
    exists u, In u us /\
      JSString.toLowerCase (email u) = JSString.toLowerCase e /\ password u = p in
  ((exists v, res = Ok v) <-> matching) /\
  (~ matching -> res = Throw (Error "Invalid email or password") /\ st' = st) /\
  (forall v, res = Ok v ->
     exists u, List.find (same_credentials e p) us = Some u /\
       v = stored_object u /\
       holds_users st' us /\
       (accepted st CURRENT_USER_KEY (session_text u) ->
          items st' !! CURRENT_USER_KEY = Some (session_text u) /\
          fst (getCurrentUser st') = Ok (of_json (to_json (session_object u))))).
Proof.
  intros Hst res st' matching.
  assert (Hrun := login_run st us Hst e p).
  assert (Hm : (exists u, List.find (same_credentials e p) us = Some u) <-> matching).
  { split.
    - intros [u Hu]. apply find_some in Hu. destruct Hu as [Hin Hc].
      exists u. split; [exact Hin|]. apply same_credentials_true. exact Hc.
    - intros [u [Hin Hc]]. apply same_credentials_true in Hc.
      destruct (List.find (same_credentials e p) us) as [u'|] eqn:E; [eauto|].
      pose proof (find_none _ _ E u Hin). congruence. }
  subst res st'. rewrite Hrun.
  destruct (List.find (same_credentials e p) us) as [u|] eqn:E; cbn [fst snd].
  - assert (Hyes : matching) by (apply Hm; eauto).
    split; [split; [tauto | eauto]|]. split; [tauto|].
    intros v [= <-]. exists u. split; [reflexivity|]. split; [reflexivity|].
    split; [apply holds_users_put_session, Hst|].
    intros Hacc. pose proof (session_after_put _ _ Hacc) as Hs. split; [exact Hs|].
    rewrite getCurrentUser_run. cbn [fst]. rewrite Hs. reflexivity.
  - assert (Hno : ~ matching) by (intros Hy; apply Hm in Hy; destruct Hy; discriminate).
    split; [split; [intros [v Hv]; discriminate | tauto]|].
    split; [intros _; split; reflexivity|].
    intros v Hv. discriminate.
Qed.

End Login.

(** The closed statements, with the folding of A-Z. *)
Section LoginClosed.

Import MockAuthService.

#[local] Existing Instance JSString.ascii_folding.

(** The theorem at a login with the email in another letter case. *)
Lemma login_succeeds_iff_credentials_match_witness :
  holds_users (roomy (users_entry [alice])) [alice] /\
  exists v, fst (login "ALICE@EXAMPLE.COM" "s3cret" (roomy (users_entry [alice]))) = Ok v.
Proof.
  split; [reflexivity|].
  pose proof (login_succeeds_iff_credentials_match (roomy (users_entry [alice]))
                [alice] "ALICE@EXAMPLE.COM" "s3cret" eq_refl) as H.
  cbv zeta in H. destruct H as (Hiff & _). apply Hiff.
  exists alice. split; [left; reflexivity|]. split; reflexivity.
Defined.

(** C2 as stated fails where the browser refuses the write: the
    credentials match and [login] returns the record, yet no session is
    established. *)
Lemma login_refused_write_no_session :
  let st := full (users_entry [alice]) in
  let run := login "alice@example.com" "s3cret" st in
  holds_users st [alice] /\
  fst run = Ok (stored_object alice) /\
  items (snd run) !! CURRENT_USER_KEY = None /\
  fst (getCurrentUser (snd run)) = Ok VNull.
Proof.
  cbv zeta. repeat split; vm_compute; reflexivity.
Qed.

End LoginClosed.

Section Session.

Import MockAuthService.

Context {folding : JSString.CaseFolding}.

Lemma session_reflects_user_object (st : Storage) (u : StoredUser) :
  items st !! CURRENT_USER_KEY = Some (session_text u) ->
  session_reflects st (user_object u).
Proof.
  intros Hs. exists (of_json (to_json (session_object u))).
  rewrite getCurrentUser_run, Hs. cbn [fst session_text JSON_stringify session_object].
  split; [reflexivity|].
  destruct u as [i e p f [m|] [a|] c]; repeat split; reflexivity.
Qed.

Lemma session_reflects_stored_object (st : Storage) (u : StoredUser) :
  items st !! CURRENT_USER_KEY = Some (session_text u) ->
  session_reflects st (stored_object u).
Proof.
  intros Hs. exists (of_json (to_json (session_object u))).
  rewrite getCurrentUser_run, Hs. cbn [fst session_text JSON_stringify session_object].
  split; [reflexivity|].
  destruct u as [i e p f [m|] [a|] c]; repeat split; reflexivity.
Qed.

(** C3, as the code has it.  After a [register] or [login] call that
    returns a user, and whose session write the browser accepts, the
    current-user key holds the session of that user: [getCurrentUser]
    returns an object whose id, email, name, avatar and mobileNumber are
    the user's id, email, fullName, avatar and mobileNumber.  After
    [logout] the key is absent and [getCurrentUser] returns null. *)
Theorem session_pointer_follows_user (st : Storage) (us : list StoredUser) :
  holds_users st us ->
  (forall (r : Readings) (e p f : string) (m : option string) (v : value),
     fst (register r e p f m st) = Ok v ->
     let new := newUser r e p f m in
     let st' := snd (register r e p f m st) in
     v = user_object new /\
     (accepted (put USERS_STORAGE_KEY (Json (JArr (map user_json (us ++ [new])))) st)
        CURRENT_USER_KEY (session_text new) ->
      items st' !! CURRENT_USER_KEY = Some (session_text new) /\
      session_reflects st' v)) /\
  (forall (e p : string) (v : value),
     fst (login e p st) = Ok v ->
     let st' := snd (login e p st) in
     exists u, In u us /\ v = stored_object u /\
       (accepted st CURRENT_USER_KEY (session_text u) ->
        items st' !! CURRENT_USER_KEY = Some (session_text u) /\
        session_reflects st' v)) /\
  (forall st0 : Storage,
     fst (logout st0) = Ok tt /\
     items (snd (logout st0)) !! CURRENT_USER_KEY = None /\
     fst (getCurrentUser (snd (logout st0))) = Ok VNull).
Proof.
  intros Hst. split; [|split].
  - intros r e p f m v Hv new st'. subst st'. revert Hv.
    rewrite (register_run st us Hst r e p f m). fold new. cbv zeta.
    destruct (existsb (same_email e) us); cbn [fst snd]; [discriminate|].
    intros [= <-]. split; [reflexivity|]. intros Hacc.
    pose proof (session_after_put _ _ Hacc) as Hs. split; [exact Hs|].
    apply session_reflects_user_object, Hs.
  - intros e p v Hv st'. subst st'. revert Hv.
    rewrite (login_run st us Hst e p).
    destruct (List.find (same_credentials e p) us) as [u|] eqn:E;
      cbn [fst snd]; [|discriminate].
    intros [= <-]. exists u. split; [apply (find_some _ _ E)|].
    split; [reflexivity|]. intros Hacc.
    pose proof (session_after_put _ _ Hacc) as Hs. split; [exact Hs|].
    apply session_reflects_stored_object, Hs.
  - intros st0. rewrite logout_run. cbn [fst snd].
    split; [reflexivity|]. unfold with_items. cbn [items].
    split; [apply lookup_delete_eq|].
    rewrite getCurrentUser_run. cbn [fst items]. rewrite lookup_delete_eq. reflexivity.
Qed.

End Session.

(** The closed statements, with the folding of A-Z. *)
Section SessionClosed.

Import MockAuthService.

#[local] Existing Instance JSString.ascii_folding.

(** The theorem at a registration in an empty, roomy storage. *)
Lemma session_pointer_follows_user_witness :
  holds_users (roomy ∅) [] /\
  session_reflects
    (snd (register sample_readings "Alice@Example.com" "s3cret" "Alice" None (roomy ∅)))
    (user_object alice).
Proof.
  split; [reflexivity|].
  pose proof (session_pointer_follows_user (roomy ∅) [] eq_refl) as (Hreg & _ & _).
  destruct (Hreg sample_readings "Alice@Example.com" "s3cret" "Alice" None
              (user_object alice) eq_refl) as (_ & Hsess).
  apply Hsess. reflexivity.
Defined.

(** C3 as stated fails where the browser refuses the write: [register]
    returns the new user while the session pointer still is the one of
    the user who was logged in before. *)
Lemma register_refused_write_stale_session :
  let st := full (<[CURRENT_USER_KEY := session_text alice]> (users_entry [alice])) in
  let run := register other_readings "bob@example.com" "hunter2" "Bob"
               (Some "9876543210") st in
  holds_users st [alice] /\
  fst run = Ok (user_object bob) /\
  items (snd run) !! CURRENT_USER_KEY = Some (session_text alice) /\
  ~ session_reflects (snd run) (user_object bob).
Proof.
  cbv zeta. split; [reflexivity|]. split; [reflexivity|]. split; [reflexivity|].
  intros (s & Hs & _ & Hemail & _). vm_compute in Hs. injection Hs as <-.
  vm_compute in Hemail. discriminate.
Qed.

End SessionClosed.

Section SessionProjection.

Import MockAuthService.

Context {folding : JSString.CaseFolding}.

Lemma to_json_props_keys (ps : list (string * value)) :
  incl (map fst (to_json_props ps)) (map fst ps).
Proof.
  induction ps as [|[k v] ps IH]; [apply incl_refl|].
  destruct v; cbn [to_json_props map fst];
    try (apply incl_cons; [left; reflexivity | apply incl_tl, IH]).
  apply incl_tl, IH.
Qed.

Lemma lookup_prop_absent {A} (k : string) (ps : list (string * A)) :
  ~ In k (map fst ps) -> lookup_prop k ps = None.
Proof.
  induction ps as [|[k' v] ps IH]; [reflexivity|].
  cbn [map fst In lookup_prop]. intros Hno.
  destruct (String.eqb_spec k' k) as [-> | Hne]; [tauto|].
  apply IH. tauto.
Qed.

Lemma password_not_session_key : ~ In "password" SESSION_KEYS.
Proof. cbn. intros H. repeat destruct H as [H | H]; try discriminate; exact H. Qed.

(** Whatever [userForStorage] builds serialises to a session-shaped text. *)
Lemma userForStorage_shape (user o : value) :
  userForStorage user = Ok o -> session_shaped (JSON_stringify o).
Proof.
  unfold userForStorage.
  destruct (get_prop user "id") as [i|]; [|discriminate].
  destruct (get_prop user "email") as [e|]; [|discriminate].
  destruct (get_prop user "fullName") as [n|]; [|discriminate].
  destruct (get_prop user "avatar") as [a|]; [|discriminate].
  destruct (get_prop user "mobileNumber") as [m|]; [|discriminate].
  intros [= <-]. cbn [JSON_stringify]. rewrite to_json_VObj.
  eexists. split; [reflexivity|].
  assert (Hkeys : incl (map fst (to_json_props
                    [("id", i); ("email", e); ("name", n); ("avatar", a);
                     ("mobileNumber", m)])) SESSION_KEYS)
    by apply to_json_props_keys.
  split; [|exact Hkeys].
  apply lookup_prop_absent. intros Hin. apply password_not_session_key, Hkeys, Hin.
Qed.

Lemma setCurrentUser_state (user : value) (st : Storage) :
  snd (setCurrentUser user st) = st \/
  exists o, userForStorage user = Ok o /\
    snd (setCurrentUser user st) = put CURRENT_USER_KEY (JSON_stringify o) st.
Proof.
  unfold setCurrentUser, try_catch, LocalStorage.bind, lift.
  destruct (userForStorage user) as [o|err]; [|left; reflexivity].
  right. exists o. split; [reflexivity|].
  unfold setItem, put. destruct (accepts _ _ _ _); reflexivity.
Qed.

Lemma session_entry_after_put (t : text) (st : Storage) :
  items (put CURRENT_USER_KEY t st) !! CURRENT_USER_KEY = items st !! CURRENT_USER_KEY \/
  items (put CURRENT_USER_KEY t st) !! CURRENT_USER_KEY = Some t.
Proof.
  destruct (put_cases CURRENT_USER_KEY t st) as [-> | ->];
    [left; reflexivity | right; apply lookup_insert_eq].
Qed.

Lemma session_entry_after_setCurrentUser (user : value) (st : Storage) :
  let st' := snd (setCurrentUser user st) in
  items st' !! CURRENT_USER_KEY = items st !! CURRENT_USER_KEY \/
  exists t, items st' !! CURRENT_USER_KEY = Some t /\ session_shaped t.
Proof.
  cbv zeta. destruct (setCurrentUser_state user st) as [-> | (o & Ho & ->)];
    [left; reflexivity|].
  destruct (session_entry_after_put (JSON_stringify o) st) as [H | H];
    [left; exact H|].
  right. exists (JSON_stringify o). split; [exact H | apply (userForStorage_shape user o Ho)].
Qed.

Lemma getStoredUsers_reads_only (st : Storage) :
  exists v, getStoredUsers st = (Ok v, st).
Proof.
  unfold getStoredUsers, try_catch, LocalStorage.bind, getItem. cbn.
  destruct (items st !! USERS_STORAGE_KEY) as [[j|s]|]; cbn; eauto.
  unfold lift, LocalStorage.ret. destruct (negb (s =? "")%string); eauto.
Qed.

(** C9.  Whatever object [setCurrentUser] is given, and whatever the
    storage holds, the call either leaves the storage as it was or writes,
    under the current-user key only, the JSON text of an object whose
    properties are among id, email, name, avatar and mobileNumber: it has
    no password property.  For a user record the text is exactly that of
    the projection (avatar and mobileNumber left out when undefined).
    Hence the session entry that [register] or [login] leaves behind is
    the previous one or such a text. *)
Theorem session_record_omits_password :
  (forall (user : value) (st : Storage),
     let st' := snd (setCurrentUser user st) in
     st' = st \/
     exists t, items st' = <[CURRENT_USER_KEY := t]> (items st) /\ session_shaped t) /\
  (forall (u : StoredUser) (st : Storage),
     let written :=
       Json (to_json (VObj [ ("id", VStr (id u)); ("email", VStr (email u));
                             ("name", VStr (fullName u));
                             ("avatar", opt_str (avatar u));
                             ("mobileNumber", opt_str (mobileNumber u)) ])) in
     snd (setCurrentUser (user_object u) st) = put CURRENT_USER_KEY written st /\
     snd (setCurrentUser (stored_object u) st) = put CURRENT_USER_KEY written st /\
     session_shaped written) /\
  (forall (st : Storage) (r : Readings) (e p f : string) (m : option string),
     let st' := snd (register r e p f m st) in
     items st' !! CURRENT_USER_KEY = items st !! CURRENT_USER_KEY \/
     exists t, items st' !! CURRENT_USER_KEY = Some t /\ session_shaped t) /\
  (forall (st : Storage) (e p : string),
     let st' := snd (login e p st) in
     items st' !! CURRENT_USER_KEY = items st !! CURRENT_USER_KEY \/
     exists t, items st' !! CURRENT_USER_KEY = Some t /\ session_shaped t).
Proof.
  split; [|split; [|split]].
  - intros user st st'. subst st'.
    destruct (setCurrentUser_state user st) as [-> | (o & Ho & ->)]; [left; reflexivity|].
    destruct (put_cases CURRENT_USER_KEY (JSON_stringify o) st) as [-> | ->];
      [left; reflexivity|].
    right. exists (JSON_stringify o).
    split; [reflexivity | apply (userForStorage_shape user o Ho)].
  - intros u st written.
    rewrite (setCurrentUser_run _ u st (userForStorage_user_object u)).
    rewrite (setCurrentUser_run _ u st (userForStorage_stored_object u)).
    cbn [snd]. split; [reflexivity|]. split; [reflexivity|].
    apply (userForStorage_shape (user_object u) (session_object u)
             (userForStorage_user_object u)).
  - intros st r e p f m st'. subst st'.
    unfold register, LocalStorage.bind.
    destruct (getStoredUsers_reads_only st) as (users & ->).
    unfold lift.
    destruct (array_find (email_matches e) users) as [x|err]; [|left; reflexivity].
    destruct (truthy x); [left; reflexivity|].
    destruct (array_push users _) as [users'|err]; [|left; reflexivity].
    rewrite saveUsers_run.
    rewrite (setCurrentUser_run _ _ _ (userForStorage_user_object _)).
    unfold LocalStorage.ret. cbn [snd].
    destruct (session_entry_after_put (session_text (newUser r e p f m))
                (put USERS_STORAGE_KEY (JSON_stringify users') st)) as [H | H].
    + left. rewrite H. apply put_lookup_other, users_key_neq_session_key.
    + right. eexists. split; [exact H|].
      apply (userForStorage_shape _ _ (userForStorage_user_object _)).
  - intros st e p st'. subst st'.
    unfold login, LocalStorage.bind.
    destruct (getStoredUsers_reads_only st) as (users & ->).
    unfold lift.
    destruct (array_find (credentials_match e p) users) as [x|err]; [|left; reflexivity].
    destruct (negb (truthy x)); [left; reflexivity|].
    pose proof (session_entry_after_setCurrentUser x st) as H. cbv zeta in H.
    destruct (setCurrentUser x st) as [[] st2]; exact H.
Qed.

End SessionProjection.

Section Frame.

Import MockAuthService.

Context {folding : JSString.CaseFolding}.

Lemma register_list_after (st : Storage) (us : list StoredUser)
    (r : Readings) (e p f : string) (m : option string) (v : value) :
  holds_users st us ->
  fst (register r e p f m st) = Ok v ->
  let new := newUser r e p f m in
  let st' := snd (register r e p f m st) in
  let users_text := Json (JArr (map user_json (us ++ [new]))) in
  (accepted st USERS_STORAGE_KEY users_text -> holds_users st' (us ++ [new])) /\
  (~ accepted st USERS_STORAGE_KEY users_text -> holds_users st' us).
Proof.
  intros Hst Hv new st' users_text. subst st'. revert Hv.
  rewrite (register_run st us Hst r e p f m). fold new. cbv zeta. fold users_text.
  destruct (existsb (same_email e) us); cbn [fst snd]; [discriminate|].
  intros _. split; intros Hacc.
  - apply holds_users_put_session, holds_users_put_users, Hacc.
  - apply holds_users_put_session, holds_users_put_refused; assumption.
Qed.

(** C10, as the code has it.  A [register] call that returns a user
    leaves every previously stored record unchanged and in its place: the
    stored list afterwards is the old list with the new record appended at
    the end when the browser accepts the write, and the old list itself
    when it refuses.  Hence [userExists] is monotone: an email for which it
    answered true before the call still gets true after it. *)
Theorem register_keeps_stored_records (st : Storage) (us : list StoredUser)
    (r : Readings) (e p f : string) (m : option string) (v : value) :
  holds_users st us ->
  fst (register r e p f m st) = Ok v ->
  let new := newUser r e p f m in
  let st' := snd (register r e p f m st) in
  let users_text := Json (JArr (map user_json (us ++ [new]))) in
  (accepted st USERS_STORAGE_KEY users_text -> holds_users st' (us ++ [new])) /\
  (~ accepted st USERS_STORAGE_KEY users_text -> holds_users st' us) /\
  (exists us', holds_users st' us' /\ (us' = us ++ [new] \/ us' = us) /\
     forall (i : nat) (u : StoredUser), nth_error us i = Some u -> nth_error us' i = Some u) /\
  (forall e' : string,
     fst (userExists e' st) = Ok true -> fst (userExists e' st') = Ok true).
Proof.
  intros Hst Hv new st' users_text.
  destruct (register_list_after st us r e p f m v Hst Hv) as (Hacc & Hrej).
  fold new users_text st' in Hacc, Hrej.
  split; [exact Hacc|]. split; [exact Hrej|].
  assert (Hus' : exists us', holds_users st' us' /\ (us' = us ++ [new] \/ us' = us)).
  { destruct (accepts st (items st) USERS_STORAGE_KEY users_text) eqn:A.
    - exists (us ++ [new]). split; [apply Hacc; exact A | left; reflexivity].
    - exists us. split; [apply Hrej; unfold accepted; congruence | right; reflexivity]. }
  destruct Hus' as (us' & Hst' & Hcase). split.
  - exists us'. split; [exact Hst'|]. split; [exact Hcase|].
    intros i u Hi. destruct Hcase as [-> | ->]; [|exact Hi].
    rewrite nth_error_app1; [exact Hi|]. apply nth_error_Some. congruence.
  - intros e'. rewrite (userExists_run st us Hst e'), (userExists_run st' us' Hst' e').
    cbn [fst]. intros [= Hex]. f_equal.
    destruct Hcase as [-> | ->]; [|exact Hex].
    rewrite existsb_app, Hex. reflexivity.
Qed.

End Frame.

(** The closed statements, with the folding of A-Z. *)
Section FrameClosed.

Import MockAuthService.

#[local] Existing Instance JSString.ascii_folding.

(** The theorem at a second registration in a roomy storage. *)
Lemma register_keeps_stored_records_witness :
  holds_users (roomy (users_entry [alice])) [alice] /\
  fst (userExists "ALICE@example.com"
         (snd (register other_readings "bob@example.com" "hunter2" "Bob"
                 (Some "9876543210") (roomy (users_entry [alice])))))
  = Ok true.
Proof.
  split; [reflexivity|].
  pose proof (register_keeps_stored_records (roomy (users_entry [alice])) [alice]
                other_readings "bob@example.com" "hunter2" "Bob" (Some "9876543210")
                (user_object bob) eq_refl eq_refl) as H.
  cbv zeta in H. destruct H as (_ & _ & _ & Hmono).
  apply Hmono. reflexivity.
Defined.

(** C10 as stated fails where the browser refuses the write: the call
    returns the new user and the stored list is the old one, without the
    new record at its end. *)
Lemma register_refused_write_list_unchanged :
  let st := full (users_entry [alice]) in
  let run := register other_readings "bob@example.com" "hunter2" "Bob"
               (Some "9876543210") st in
  holds_users st [alice] /\
  fst run = Ok (user_object bob) /\
  holds_users (snd run) [alice] /\
  ~ holds_users (snd run) ([alice] ++ [bob]).
Proof.
  cbv zeta. split; [reflexivity|]. split; [reflexivity|]. split; [reflexivity|].
  vm_compute. discriminate.
Qed.

End FrameClosed.

(** ** The payment-gateway adapter *)
Section Payments.

Import RazorpayService.

Lemma prefix_append (p s : string) : String.prefix p (p +:+ s) = true.
Proof.
  induction p as [|c p IH]; [destruct s; reflexivity|].
  change (String.prefix (String c p) (String c (p +:+ s)) = true).
  cbn [String.prefix]. destruct (ascii_dec c c); [exact IH | congruence].
Qed.

(** C4.  Whatever the amount, the customer and the order id,
    [processCODPayment] resolves with success = true, a transaction id
    'COD_<Date.now()>_<random suffix in upper case>', the payment method
    'Cash on Delivery' and the amount it was given.  Its only effect is
    the timeout of 1000 ms: no script is injected and no gateway object
    is created or opened. *)
Theorem processCODPayment_always_succeeds (w : World) (amount : float)
    (customerInfo : CustomerInfo) (orderId : string) (st : Page) :
  exists (r : PaymentResult.t) (st' : Page),
    processCODPayment w amount customerInfo orderId st = (Resolved r, st') /\
    PaymentResult.success r = true /\
    PaymentResult.transactionId r =
      "COD_" +:+ JSString.of_N (clock w (clock_reads st)) +:+ "_"
      +:+ JSString.toUpperCase (JSString.substring 2 8 (random w (random_reads st))) /\
    String.prefix "COD_" (PaymentResult.transactionId r) = true /\
    PaymentResult.paymentMethod r = "Cash on Delivery" /\
    PaymentResult.amount r = amount /\
    PaymentResult.errorMessage r = None /\
    effects st' = effects st ++ [Timeout 1000] /\
    isRazorpayLoaded st' = isRazorpayLoaded st.
Proof.
  eexists. eexists. split; [reflexivity|].
  cbn [PaymentResult.success PaymentResult.transactionId PaymentResult.paymentMethod
         PaymentResult.amount PaymentResult.errorMessage].
  split; [reflexivity|]. split; [reflexivity|]. split; [apply prefix_append|].
  repeat split; reflexivity.
Qed.

(** What [createOrder] returns when the configuration check passes:
    after a timeout of 1000 ms and nothing else, an order whose amount and
    amount_due are the binary64 product of the requested amount and 100,
    whose amount_paid is 0 and status 'created', whose currency and
    receipt are those of the request, and whose id is made up locally from
    the clock and the random source. *)
Lemma createOrder_returns_order (cfg : Config) (w : World)
    (orderRequest : RazorpayOrderRequest.t) (st : Page) :
  validateRazorpayConfig cfg = true ->
  exists (o : RazorpayOrderResponse.t) (st' : Page),
    createOrder cfg w orderRequest st = (Resolved o, st') /\
    RazorpayOrderResponse.amount o = (RazorpayOrderRequest.amount orderRequest * 100)%float /\
    RazorpayOrderResponse.amount_due o = (RazorpayOrderRequest.amount orderRequest * 100)%float /\
    RazorpayOrderResponse.amount_paid o = 0%float /\
    RazorpayOrderResponse.status o = "created" /\
    RazorpayOrderResponse.currency o = RazorpayOrderRequest.currency orderRequest /\
    RazorpayOrderResponse.receipt o = RazorpayOrderRequest.receipt orderRequest /\
    RazorpayOrderResponse.id o =
      "order_" +:+ JSString.of_N (clock w (clock_reads st)) +:+ "_"
      +:+ JSString.substring 2 8 (random w (random_reads st)) /\
    effects st' = effects st ++ [Timeout 1000].
Proof.
  intros Hvalid. unfold createOrder. rewrite Hvalid. cbn [negb].
  eexists. eexists. split; [reflexivity|]. repeat split; reflexivity.
Qed.

(** At an order of 499 rupees the amount is 49900 paise, 100 times the
    request. *)
Example createOrder_whole_rupees :
  exists (o : RazorpayOrderResponse.t) (st' : Page),
    createOrder sample_config (sample_world None None None)
      {| RazorpayOrderRequest.amount := 499;
         RazorpayOrderRequest.currency := "INR";
         RazorpayOrderRequest.receipt := "receipt_1";
         RazorpayOrderRequest.notes := None |} fresh_page = (Resolved o, st') /\
    RazorpayOrderResponse.amount o = 49900%float /\
    Number.is_product 100 499 (RazorpayOrderResponse.amount o) = true.
Proof.
  eexists. eexists. split; [vm_compute; reflexivity|]. split; reflexivity.
Qed.

(** C7.  [createOrder] does not return 100 times the requested amount
    for every request.  The request for 19.99 rupees (the binary64 number
    1999 / 100) passes the configuration check and resolves, after the
    1000 ms timeout, with status 'created', amount_paid 0 and the
    request's currency and receipt, but its amount and amount_due are
    1998.9999999999998: less than 1999, not 100 times the request, and not
    a whole number of paise.  The request for the largest binary64 number
    resolves with the amount Infinity. *)
Theorem createOrder_amount_not_in_paise :
  let rupees_19_99 :=
    {| RazorpayOrderRequest.amount := 0x1.3fd70a3d70a3dp+4;
       RazorpayOrderRequest.currency := "INR";
       RazorpayOrderRequest.receipt := "receipt_2";
       RazorpayOrderRequest.notes := None |} in
  let largest :=
    {| RazorpayOrderRequest.amount := 0x1.fffffffffffffp+1023;
       RazorpayOrderRequest.currency := "INR";
       RazorpayOrderRequest.receipt := "receipt_3";
       RazorpayOrderRequest.notes := None |} in
  validateRazorpayConfig sample_config = true /\
  RazorpayOrderRequest.amount rupees_19_99 = (1999 / 100)%float /\
  (exists (o : RazorpayOrderResponse.t) (st' : Page),
     createOrder sample_config (sample_world None None None) rupees_19_99 fresh_page
     = (Resolved o, st') /\
     effects st' = [Timeout 1000] /\
     RazorpayOrderResponse.status o = "created" /\
     RazorpayOrderResponse.amount_paid o = 0%float /\
     RazorpayOrderResponse.currency o = "INR" /\
     RazorpayOrderResponse.receipt o = "receipt_2" /\
     RazorpayOrderResponse.amount o = 0x1.f3bffffffffffp+10%float /\
     RazorpayOrderResponse.amount_due o = 0x1.f3bffffffffffp+10%float /\
     (RazorpayOrderResponse.amount o <? 1999)%float = true /\
     Number.is_product 100 (RazorpayOrderRequest.amount rupees_19_99)
       (RazorpayOrderResponse.amount o) = false /\
     Number.isInteger (RazorpayOrderResponse.amount o) = false) /\
  (exists (o : RazorpayOrderResponse.t) (st' : Page),
     createOrder sample_config (sample_world None None None) largest fresh_page
     = (Resolved o, st') /\
     RazorpayOrderResponse.amount o = infinity /\
     RazorpayOrderResponse.amount_due o = infinity).
Proof.
  cbv zeta. split; [reflexivity|]. split; [vm_compute; reflexivity|].
  split.
  - eexists. eexists. split; [vm_compute; reflexivity|].
    repeat split; vm_compute; reflexivity.
  - eexists. eexists. split; [vm_compute; reflexivity|].
    split; vm_compute; reflexivity.
Qed.

(** C8.  [getPaymentStatus] resolves for every identifier, and the
    answers for two identifiers differ in the echoed id only: status is
    'captured' and captured is true whatever is asked. *)
Theorem getPaymentStatus_is_canned (w : World) (paymentId other : string) (st : Page) :
  exists (r r' : PaymentStatus.t) (st' : Page),
    getPaymentStatus w paymentId st = (Resolved r, st') /\
    getPaymentStatus w other st = (Resolved r', st') /\
    PaymentStatus.id r = paymentId /\
    PaymentStatus.id r' = other /\
    PaymentStatus.status r = "captured" /\
    PaymentStatus.captured r = true /\
    PaymentStatus.status r' = PaymentStatus.status r /\
    PaymentStatus.captured r' = PaymentStatus.captured r /\
    PaymentStatus.amount r' = PaymentStatus.amount r /\
    PaymentStatus.currency r' = PaymentStatus.currency r /\
    PaymentStatus.method r' = PaymentStatus.method r /\
    PaymentStatus.created_at r' = PaymentStatus.created_at r /\
    effects st' = effects st ++ [Timeout 500].
Proof.
  do 3 eexists. split; [reflexivity|]. split; [reflexivity|].
  repeat split; reflexivity.
Qed.

End Payments.

Section UPI.

Import RazorpayService.

Lemma loadRazorpayScript_loaded (w : World) (st : Page) :
  isRazorpayLoaded st = true ->
  loadRazorpayScript w st = (Resolved true, st).
Proof. intros H. unfold loadRazorpayScript, bind, get_isRazorpayLoaded. rewrite H. reflexivity. Qed.

Lemma loadRazorpayScript_fresh (w : World) (st : Page) :
  isRazorpayLoaded st = false ->
  loadRazorpayScript w st =
  match script_event w with
  | Some true =>
      (Resolved true,
       {| isRazorpayLoaded := true;
          effects := effects st ++ [AppendScript CHECKOUT_SCRIPT];
          clock_reads := clock_reads st; random_reads := random_reads st |})
  | Some false =>
      (Resolved false,
       {| isRazorpayLoaded := false;
          effects := effects st ++ [AppendScript CHECKOUT_SCRIPT];
          clock_reads := clock_reads st; random_reads := random_reads st |})
  | None =>
      (Pending,
       {| isRazorpayLoaded := false;
          effects := effects st ++ [AppendScript CHECKOUT_SCRIPT];
          clock_reads := clock_reads st; random_reads := random_reads st |})
  end.
Proof.
  intros H. unfold loadRazorpayScript, bind, get_isRazorpayLoaded. rewrite H.
  unfold new_Promise, perform, adopt. rewrite H.
  destruct (script_event w) as [[]|]; reflexivity.
Qed.

(** Either way of getting the script leaves a page from which the call
    goes on. *)
Lemma loadRazorpayScript_ready (w : World) (st : Page) :
  isRazorpayLoaded st = true \/ script_event w = Some true ->
  exists st1, loadRazorpayScript w st = (Resolved true, st1).
Proof.
  intros Hready. destruct (isRazorpayLoaded st) eqn:L.
  - exists st. apply loadRazorpayScript_loaded, L.
  - destruct Hready as [? | Hev]; [discriminate|].
    rewrite (loadRazorpayScript_fresh w st L), Hev. eauto.
Qed.

Ltac upi_start Hready H :=
  destruct Hready as (Hload & Hvalid & Hopts);
  unfold processUPIPayment;
  unfold bind at 1; unfold try_catch; unfold bind at 1;
  destruct (loadRazorpayScript_ready _ _ Hload) as (st1 & ->);
  cbn [negb]; unfold createOrder; rewrite Hvalid; cbn [negb];
  unfold bind, sleep, perform, Date_now, Math_random_36, ret, call;
  cbn [RazorpayOrderResponse.id];
  match goal with
  | |- context [generateRazorpayOptions ?c ?a ?i ?ci ?m] =>
      destruct (Hopts i) as (options & ->)
  end;
  unfold new_Promise, throw, ret, adopt, never;
  rewrite ?H.

(** When the gateway constructor throws, the promise the executor
    belongs to is rejected, and the [try] around the [return] does not
    see it. *)
Lemma processUPIPayment_constructor_throws (cfg : Config) (w : World)
    (amount : float) (customerInfo : CustomerInfo) (orderId : string)
    (st : Page) (t : thrown) :
  reaches_modal cfg w amount customerInfo st ->
  construct_throws w = Some t ->
  fst (processUPIPayment cfg w amount customerInfo orderId st) = Rejected t.
Proof.
  intros Hready Hc. upi_start Hready Hc. reflexivity.
Qed.

Lemma processUPIPayment_open_throws (cfg : Config) (w : World)
    (amount : float) (customerInfo : CustomerInfo) (orderId : string)
    (st : Page) (t : thrown) :
  reaches_modal cfg w amount customerInfo st ->
  construct_throws w = None ->
  open_throws w = Some t ->
  fst (processUPIPayment cfg w amount customerInfo orderId st) = Rejected t.
Proof.
  intros Hready Hc Ho. upi_start Hready Hc. rewrite Ho. reflexivity.
Qed.

(** The dismissal callback resolves the promise with a cancellation. *)
Lemma processUPIPayment_dismissed (cfg : Config) (w : World)
    (amount : float) (customerInfo : CustomerInfo) (orderId : string) (st : Page) :
  reaches_modal cfg w amount customerInfo st ->
  construct_throws w = None ->
  open_throws w = None ->
  modal_callback w = Some Ondismiss ->
  exists r, fst (processUPIPayment cfg w amount customerInfo orderId st) = Resolved r /\
    PaymentResult.success r = false /\
    PaymentResult.errorMessage r = Some "Payment cancelled by user" /\
    String.prefix "UPI_CANCELLED_" (PaymentResult.transactionId r) = true /\
    PaymentResult.amount r = amount.
Proof.
  intros Hready Hc Ho Hcb. upi_start Hready Hc. rewrite Ho, Hcb. cbn [fst].
  eexists. split; [reflexivity|].
  cbn [PaymentResult.success PaymentResult.errorMessage PaymentResult.transactionId
         PaymentResult.amount].
  split; [reflexivity|]. split; [reflexivity|]. split; [apply prefix_append | reflexivity].
Qed.

(** The completion handler resolves it with a success. *)
Lemma processUPIPayment_completed (cfg : Config) (w : World)
    (amount : float) (customerInfo : CustomerInfo) (orderId : string) (st : Page)
    (response : HandlerResponse) :
  reaches_modal cfg w amount customerInfo st ->
  construct_throws w = None ->
  open_throws w = None ->
  modal_callback w = Some (Handler response) ->
  exists r, fst (processUPIPayment cfg w amount customerInfo orderId st) = Resolved r /\
    PaymentResult.success r = true /\
    PaymentResult.errorMessage r = None /\
    PaymentResult.razorpayPaymentId r = razorpay_payment_id response /\
    PaymentResult.razorpayOrderId r = razorpay_order_id response /\
    PaymentResult.razorpaySignature r = razorpay_signature response /\
    PaymentResult.amount r = amount.
Proof.
  intros Hready Hc Ho Hcb. upi_start Hready Hc. rewrite Ho, Hcb. cbn [fst].
  eexists. split; [reflexivity|].
  cbn [PaymentResult.success PaymentResult.errorMessage PaymentResult.amount
         PaymentResult.razorpayPaymentId PaymentResult.razorpayOrderId
         PaymentResult.razorpaySignature].
  repeat split; reflexivity.
Qed.

(** Without a callback the promise stays pending. *)
Lemma processUPIPayment_no_callback (cfg : Config) (w : World)
    (amount : float) (customerInfo : CustomerInfo) (orderId : string) (st : Page) :
  reaches_modal cfg w amount customerInfo st ->
  construct_throws w = None ->
  open_throws w = None ->
  modal_callback w = None ->
  fst (processUPIPayment cfg w amount customerInfo orderId st) = Pending.
Proof.
  intros Hready Hc Ho Hcb. upi_start Hready Hc. rewrite Ho, Hcb. reflexivity.
Qed.

(** Exceptions thrown before the promise of the modal is made are
    caught and become a failure result that carries the message. *)
Lemma processUPIPayment_script_error (cfg : Config) (w : World)
    (amount : float) (customerInfo : CustomerInfo) (orderId : string) (st : Page) :
  isRazorpayLoaded st = false ->
  script_event w = Some false ->
  exists r, fst (processUPIPayment cfg w amount customerInfo orderId st) = Resolved r /\
    PaymentResult.success r = false /\
    PaymentResult.errorMessage r = Some "Failed to load Razorpay payment gateway" /\
    String.prefix "UPI_FAILED_" (PaymentResult.transactionId r) = true.
Proof.
  intros Hl Hev. unfold processUPIPayment.
  unfold bind at 1; unfold try_catch; unfold bind at 1.
  rewrite (loadRazorpayScript_fresh w st Hl), Hev. cbn [negb throw].
  eexists. split; [reflexivity|].
  cbn [PaymentResult.success PaymentResult.errorMessage PaymentResult.transactionId].
  split; [reflexivity|]. split; [reflexivity | apply prefix_append].
Qed.

Lemma processUPIPayment_config_invalid (cfg : Config) (w : World)
    (amount : float) (customerInfo : CustomerInfo) (orderId : string) (st : Page) :
  isRazorpayLoaded st = true \/ script_event w = Some true ->
  validateRazorpayConfig cfg = false ->
  exists r, fst (processUPIPayment cfg w amount customerInfo orderId st) = Resolved r /\
    PaymentResult.success r = false /\
    PaymentResult.errorMessage r = Some "Razorpay configuration is invalid".
Proof.
  intros Hload Hv. unfold processUPIPayment.
  unfold bind at 1; unfold try_catch; unfold bind at 1.
  destruct (loadRazorpayScript_ready _ _ Hload) as (st1 & ->).
  cbn [negb]. unfold createOrder. rewrite Hv. cbn [negb].
  eexists. split; [reflexivity|]. split; reflexivity.
Qed.

Lemma processUPIPayment_options_throw (cfg : Config) (w : World)
    (amount : float) (customerInfo : CustomerInfo) (orderId : string) (st : Page)
    (t : thrown) :
  isRazorpayLoaded st = true \/ script_event w = Some true ->
  validateRazorpayConfig cfg = true ->
  (forall order_id,
     generateRazorpayOptions cfg amount order_id customerInfo "upi" = Throws t) ->
  exists r, fst (processUPIPayment cfg w amount customerInfo orderId st) = Resolved r /\
    PaymentResult.success r = false /\
    PaymentResult.errorMessage r = Some (message_of t).
Proof.
  intros Hload Hv Ht. unfold processUPIPayment.
  unfold bind at 1; unfold try_catch; unfold bind at 1.
  destruct (loadRazorpayScript_ready _ _ Hload) as (st1 & ->).
  cbn [negb]. unfold createOrder. rewrite Hv. cbn [negb].
  unfold bind, sleep, perform, Date_now, Math_random_36, ret, call.
  cbn [RazorpayOrderResponse.id]. rewrite Ht.
  eexists. split; [reflexivity|]. split; reflexivity.
Qed.

(** C5, where the code departs from it.  Once the call has got as far
    as the gateway modal, an exception thrown by [new window.Razorpay(..)]
    or by [razorpay.open()] is raised inside the executor of the promise
    that is returned from within the [try]: the promise of
    [processUPIPayment] is rejected with what was thrown, where the claim
    has a resolved result with success = false.  (The lemmas above are the
    parts of the claim that hold: dismissal, completion, and the
    exceptions raised before that promise is made.) *)
Theorem processUPIPayment_rejects_when_gateway_throws (cfg : Config) (w : World)
    (amount : float) (customerInfo : CustomerInfo) (orderId : string)
    (st : Page) (t : thrown) :
  reaches_modal cfg w amount customerInfo st ->
  construct_throws w = Some t \/
  (construct_throws w = None /\ open_throws w = Some t) ->
  fst (processUPIPayment cfg w amount customerInfo orderId st) = Rejected t /\
  forall r, fst (processUPIPayment cfg w amount customerInfo orderId st) <> Resolved r.
Proof.
  intros Hready Hthrows.
  assert (Hrej : fst (processUPIPayment cfg w amount customerInfo orderId st)
                 = Rejected t).
  { destruct Hthrows as [Hc | [Hc Ho]].
    - apply processUPIPayment_constructor_throws; assumption.
    - apply processUPIPayment_open_throws; assumption. }
  split; [exact Hrej|]. intros r. rewrite Hrej. discriminate.
Qed.

(** The theorem at a gateway whose constructor throws, on a fresh page
    where the script loads and the configuration is valid. *)
Lemma processUPIPayment_rejects_when_gateway_throws_witness :
  let w := sample_world (Some (ErrorInstance "gateway refused the options")) None
             (Some Ondismiss) in
  reaches_modal sample_config w 499 sample_customer fresh_page /\
  fst (processUPIPayment sample_config w 499 sample_customer "order_42" fresh_page)
  = Rejected (ErrorInstance "gateway refused the options").
Proof.
  cbv zeta.
  assert (Hready : reaches_modal sample_config
            (sample_world (Some (ErrorInstance "gateway refused the options")) None
               (Some Ondismiss)) 499 sample_customer fresh_page).
  { split; [right; reflexivity|]. split; [reflexivity|].
    intros order_id. eexists. reflexivity. }
  split; [exact Hready|].
  apply (processUPIPayment_rejects_when_gateway_throws sample_config _ 499
           sample_customer "order_42" fresh_page _ Hready).
  left. reflexivity.
Defined.

End UPI.

(** ** The countdown of the QR view *)
Section Countdown.

Import StreamlinedUPIPayment.

Lemma seconds_stopped (n : nat) (s : State) :
  interval s = false -> seconds n s = s.
Proof.
  intros Hs. induction n as [|n IH]; [reflexivity|].
  cbn [seconds]. unfold tick. rewrite Hs. exact IH.
Qed.

(** A running countdown that shows [t >= 1]: what [n] seconds make of it. *)
Lemma seconds_running (n : nat) (m : UPIPaymentMode) (t : Z) :
  (1 <= t)%Z ->
  seconds n {| paymentMode := m; timer := t; isExpired := false; interval := true |} =
  if (Z.of_nat n <? t)%Z
  then {| paymentMode := m; timer := t - Z.of_nat n; isExpired := false; interval := true |}
  else {| paymentMode := m; timer := 0; isExpired := true; interval := false |}.
Proof.
  revert t. induction n as [|n IH]; intros t Ht.
  - cbn [seconds]. replace (Z.of_nat 0 <? t)%Z with true by (symmetry; apply Z.ltb_lt; lia).
    f_equal. cbn. lia.
  - cbn [seconds]. unfold tick. cbn [interval timer paymentMode isExpired].
    destruct (Z.leb_spec t 1) as [Hle | Hgt].
    + rewrite seconds_stopped by reflexivity.
      replace (Z.of_nat (S n) <? t)%Z with false by (symmetry; apply Z.ltb_ge; lia).
      reflexivity.
    + rewrite IH by lia.
      destruct (Z.ltb_spec (Z.of_nat n) (t - 1)) as [Hlt | Hge].
      * replace (Z.of_nat (S n) <? t)%Z with true by (symmetry; apply Z.ltb_lt; lia).
        f_equal. lia.
      * replace (Z.of_nat (S n) <? t)%Z with false by (symmetry; apply Z.ltb_ge; lia).
        reflexivity.
Qed.

(** C6.  Entering QR mode from the initial state starts the interval
    with the timer at 180.  After [n] seconds the timer shows 180 - n as
    long as n < 180, every tick taking off exactly 1; the tick of second
    180 sets it to 0, clears the interval and sets isExpired.  From then on
    nothing changes any more, whatever time passes, until
    [resetToSelection] puts the timer back to 180 and clears isExpired;
    entering QR mode again starts the same countdown. *)
Theorem qr_countdown_expires_after_180_seconds :
  let s0 := setPaymentMode qr initial in
  let expired :=
    {| paymentMode := qr; timer := 0; isExpired := true; interval := false |} in
  s0 = {| paymentMode := qr; timer := 180; isExpired := false; interval := true |} /\
  (forall n : nat,
     seconds n s0 =
     if (n <? 180)%nat
     then {| paymentMode := qr; timer := 180 - Z.of_nat n;
             isExpired := false; interval := true |}
     else expired) /\
  (forall n : nat,
     timer (seconds (S n) s0) =
     if (n <? 180)%nat then (timer (seconds n s0) - 1)%Z else 0%Z) /\
  seconds 179 s0 =
    {| paymentMode := qr; timer := 1; isExpired := false; interval := true |} /\
  seconds 180 s0 = expired /\
  (forall n : nat, seconds (180 + n) s0 = expired) /\
  tick expired = expired /\
  (forall n : nat,
     resetToSelection (seconds n s0) = initial /\
     setPaymentMode qr (resetToSelection (seconds n s0)) = s0).
Proof.
  intros s0 expired.
  assert (Hs0 : s0 = {| paymentMode := qr; timer := 180;
                        isExpired := false; interval := true |}) by reflexivity.
  assert (Hclosed : forall n : nat,
             seconds n s0 =
             if (n <? 180)%nat
             then {| paymentMode := qr; timer := 180 - Z.of_nat n;
                     isExpired := false; interval := true |}
             else expired).
  { intros n. rewrite Hs0, seconds_running by lia.
    destruct (Nat.ltb_spec n 180) as [Hlt | Hge].
    - replace (Z.of_nat n <? 180)%Z with true by (symmetry; apply Z.ltb_lt; lia).
      reflexivity.
    - replace (Z.of_nat n <? 180)%Z with false by (symmetry; apply Z.ltb_ge; lia).
      reflexivity. }
  split; [exact Hs0|]. split; [exact Hclosed|]. split; [|split; [|split; [|split; [|split]]]].
  - intros n. rewrite (Hclosed (S n)), (Hclosed n).
    destruct (Nat.ltb_spec n 180) as [Hlt | Hge].
    + destruct (Nat.ltb_spec (S n) 180) as [Hlt' | Hge'];
        subst expired; cbn [timer]; lia.
    + destruct (Nat.ltb_spec (S n) 180) as [Hlt' | Hge']; [lia | reflexivity].
  - rewrite Hclosed. reflexivity.
  - rewrite Hclosed. reflexivity.
  - intros n. rewrite Hclosed.
    destruct (Nat.ltb_spec (180 + n) 180) as [Hlt | Hge]; [lia | reflexivity].
  - reflexivity.
  - intros n. split; reflexivity.
Qed.

End Countdown.

(** * Further properties *)

(** ** The authentication store *)
Section AuthFurther.

Import MockAuthService MockAuthNotions.

Context {folding : JSString.CaseFolding}.

Lemma existsb_same_email_in (e : string) (us : list StoredUser) :
  existsb (same_email e) us = true <->
  In (JSString.toLowerCase e) (map (fun u => JSString.toLowerCase (email u)) us).
Proof.
  rewrite existsb_same_email, in_map_iff. split.
  - intros (u & Hin & Hu). exists u. split; [exact Hu | exact Hin].
  - intros (u & Hu & Hin). exists u. split; [exact Hin | exact Hu].
Qed.

Lemma find_app_none {A} (f : A -> bool) (l1 l2 : list A) :
  List.find f l1 = None -> List.find f (l1 ++ l2) = List.find f l2.
Proof.
  induction l1 as [|x l1 IH]; [reflexivity|]. cbn [List.find app].
  destruct (f x); [discriminate | exact IH].
Qed.

Lemma find_credentials_none (e p : string) (us : list StoredUser) :
  existsb (same_email e) us = false ->
  List.find (same_credentials e p) us = None.
Proof.
  intros Hex. destruct (List.find (same_credentials e p) us) as [u|] eqn:E; [|reflexivity].
  apply find_some in E. destruct E as [Hin Hc].
  unfold same_credentials in Hc. apply andb_true_iff in Hc. destruct Hc as [Hc _].
  assert (existsb (same_email e) us = true) by (apply existsb_exists; eauto).
  congruence.
Qed.

Lemma same_email_lower (e e' : string) (u : StoredUser) :
  JSString.toLowerCase e' = JSString.toLowerCase e ->
  same_email e' u = same_email e u.
Proof. intros He. unfold same_email. rewrite He. reflexivity. Qed.

Lemma existsb_same_email_lower (e e' : string) (us : list StoredUser) :
  JSString.toLowerCase e' = JSString.toLowerCase e ->
  existsb (same_email e') us = existsb (same_email e) us.
Proof.
  intros He. induction us as [|u us IH]; [reflexivity|].
  cbn [existsb]. rewrite (same_email_lower e e' u He), IH. reflexivity.
Qed.

(** The storage after [register], for any storage whatsoever. *)
Lemma register_state (st : Storage) (r : Readings) (e p f : string)
    (m : option string) :
  snd (register r e p f m st) = st \/
  exists t1 t2,
    snd (register r e p f m st)
    = put CURRENT_USER_KEY t2 (put USERS_STORAGE_KEY t1 st).
Proof.
  unfold register, LocalStorage.bind.
  destruct (getStoredUsers_reads_only st) as (users & ->). unfold lift.
  destruct (array_find (email_matches e) users) as [x|err]; [|left; reflexivity].
  destruct (truthy x); [left; reflexivity|].
  destruct (array_push users _) as [users'|err]; [|left; reflexivity].
  rewrite saveUsers_run.
  rewrite (setCurrentUser_run _ _ _ (userForStorage_user_object _)).
  right. eexists. eexists. reflexivity.
Qed.

Lemma login_state (st : Storage) (e p : string) :
  snd (login e p st) = st \/
  exists t, snd (login e p st) = put CURRENT_USER_KEY t st.
Proof.
  unfold login, LocalStorage.bind.
  destruct (getStoredUsers_reads_only st) as (users & ->). unfold lift.
  destruct (array_find (credentials_match e p) users) as [x|err]; [|left; reflexivity].
  destruct (negb (truthy x)); [left; reflexivity|].
  destruct (setCurrentUser_state x st) as [H | (o & _ & H)].
  - left. destruct (setCurrentUser x st) as [[] st2]; exact H.
  - right. exists (JSON_stringify o). destruct (setCurrentUser x st) as [[] st2]; exact H.
Qed.

Lemma setCurrentUser_never_throws (user : value) (st : Storage) :
  fst (setCurrentUser user st) = Ok tt.
Proof.
  unfold setCurrentUser, try_catch, LocalStorage.bind, lift.
  destruct (userForStorage user); [|reflexivity].
  unfold setItem. destruct (accepts _ _ _ _); reflexivity.
Qed.

Lemma delete_put_same (k : string) (t : text) (st : Storage) :
  delete k (items (put k t st)) = delete k (items st).
Proof.
  destruct (put_cases k t st) as [-> | ->]; [reflexivity|].
  apply delete_insert_eq.
Qed.

Lemma put_keeps_accepts (k : string) (t : text) (st : Storage) :
  accepts (put k t st) = accepts st.
Proof. unfold put. destruct (accepts st (items st) k t); reflexivity. Qed.

(** The value [getStoredUsers] reads depends on the users entry only. *)
Lemma getStoredUsers_value (st : Storage) :
  fst (getStoredUsers st) =
  Ok match items st !! USERS_STORAGE_KEY with
     | Some (Json j) => of_json j
     | Some (Raw _) | None => VArr []
     end.
Proof.
  unfold getStoredUsers, try_catch, LocalStorage.bind, getItem. cbn.
  destruct (items st !! USERS_STORAGE_KEY) as [[j|s]|]; cbn; try reflexivity.
  unfold lift, LocalStorage.ret. destruct (negb (s =? "")%string); reflexivity.
Qed.

Lemma getStoredUsers_same_entry (st st' : Storage) :
  items st' !! USERS_STORAGE_KEY = items st !! USERS_STORAGE_KEY ->
  fst (getStoredUsers st') = fst (getStoredUsers st).
Proof. intros H. rewrite !getStoredUsers_value, H. reflexivity. Qed.

Lemma getStoredUsers_pair (st : Storage) :
  getStoredUsers st = (fst (getStoredUsers st), st).
Proof. destruct (getStoredUsers_reads_only st) as (v & ->). reflexivity. Qed.

(** X1.  Uniqueness of the stored emails up to letter case is an
    invariant of [register]: whether the call fails or succeeds, and
    whether the browser takes the write or not, the list stored afterwards
    has it when the list stored before had it.  This for whatever
    [toLowerCase] folds, as long as folding twice is folding once. *)
Theorem register_keeps_emails_unique (st : Storage) (us : list StoredUser)
    (r : Readings) (e p f : string) (m : option string) :
  JSString.idempotent folding ->
  holds_users st us ->
  emails_unique us ->
  exists us',
    holds_users (snd (register r e p f m st)) us' /\
    emails_unique us' /\
    (us' = us \/ us' = us ++ [newUser r e p f m]).
Proof.
  intros Hidem Hst Huniq. rewrite (register_run st us Hst r e p f m).
  destruct (existsb (same_email e) us) eqn:Hex; cbn [snd].
  - exists us. split; [exact Hst|]. split; [exact Huniq | left; reflexivity].
  - set (new := newUser r e p f m).
    set (t := Json (JArr (map user_json (us ++ [new])))).
    destruct (accepts st (items st) USERS_STORAGE_KEY t) eqn:A.
    + exists (us ++ [new]). split; [|split; [|right; reflexivity]].
      * apply holds_users_put_session, holds_users_put_users. exact A.
      * unfold emails_unique. rewrite map_app. cbn [map].
        apply NoDup_app. split; [exact Huniq|]. split; [|apply NoDup_singleton].
        intros x Hx Hin. apply list_elem_of_In in Hx. apply list_elem_of_In in Hin.
        cbn [In] in Hin. destruct Hin as [<- | []].
        subst new. cbn [email newUser] in Hx. rewrite Hidem in Hx.
        apply existsb_same_email_in in Hx. congruence.
    + exists us. split; [|split; [exact Huniq | left; reflexivity]].
      apply holds_users_put_session, holds_users_put_refused; [|exact Hst].
      unfold accepted. fold t. congruence.
Qed.

(** X2.  Registration and login fit together: after a registration that
    succeeded and whose list write the browser accepted, [login] with the
    registered email in any letter case and the registered password
    returns the record of the new user, with any other password it throws
    'Invalid email or password', and [userExists] answers true for the
    email in any letter case.  This for whatever [toLowerCase] folds, as
    long as folding twice is folding once. *)
Theorem login_after_register (st : Storage) (us : list StoredUser)
    (r : Readings) (e p f : string) (m : option string) (v : value) :
  JSString.idempotent folding ->
  holds_users st us ->
  fst (register r e p f m st) = Ok v ->
  accepted st USERS_STORAGE_KEY
    (Json (JArr (map user_json (us ++ [newUser r e p f m])))) ->
  let st' := snd (register r e p f m st) in
  (forall e' : string,
     JSString.toLowerCase e' = JSString.toLowerCase e ->
     fst (login e' p st') = Ok (stored_object (newUser r e p f m))) /\
  (forall e' p' : string,
     JSString.toLowerCase e' = JSString.toLowerCase e ->
     p' <> p ->
     fst (login e' p' st') = Throw (Error "Invalid email or password")) /\
  (forall e' : string,
     JSString.toLowerCase e' = JSString.toLowerCase e ->
     fst (userExists e' st') = Ok true).
Proof.
  intros Hidem Hst Hv Hacc st'.
  assert (Hex : existsb (same_email e) us = false).
  { revert Hv. rewrite (register_run st us Hst r e p f m).
    destruct (existsb (same_email e) us); [discriminate | reflexivity]. }
  assert (Hst' : holds_users st' (us ++ [newUser r e p f m])).
  { subst st'. rewrite (register_run st us Hst r e p f m), Hex. cbn [snd].
    apply holds_users_put_session, holds_users_put_users, Hacc. }
  assert (Hnew : forall e', JSString.toLowerCase e' = JSString.toLowerCase e ->
             same_email e' (newUser r e p f m) = true).
  { intros e' He. apply same_email_true. cbn [email newUser].
    rewrite Hidem. symmetry. exact He. }
  split; [|split].
  - intros e' He. rewrite (login_run st' _ Hst' e' p).
    rewrite find_app_none
      by (apply find_credentials_none; rewrite (existsb_same_email_lower e e' us He);
          exact Hex).
    cbn [List.find]. unfold same_credentials at 1. rewrite (Hnew e' He).
    cbn [password newUser]. rewrite String.eqb_refl. reflexivity.
  - intros e' p' He Hp. rewrite (login_run st' _ Hst' e' p').
    rewrite find_app_none
      by (apply find_credentials_none; rewrite (existsb_same_email_lower e e' us He);
          exact Hex).
    cbn [List.find]. unfold same_credentials at 1. rewrite (Hnew e' He).
    cbn [password newUser andb].
    destruct (String.eqb_spec p p') as [Heq | Hne]; [congruence | reflexivity].
  - intros e' He. rewrite (userExists_run st' _ Hst' e'). cbn [fst]. f_equal.
    rewrite existsb_app. cbn [existsb]. rewrite (Hnew e' He).
    rewrite orb_true_r. reflexivity.
Qed.

(** X3.  [userExists] and [register] agree on a list of user records:
    [userExists] answers true for an email exactly when [register] with
    that email fails as taken, and false exactly when [register] returns a
    user; [userExists] itself writes nothing. *)
Theorem userExists_iff_register_fails (st : Storage) (us : list StoredUser)
    (r : Readings) (e p f : string) (m : option string) :
  holds_users st us ->
  (fst (userExists e st) = Ok true <->
   fst (register r e p f m st) = Throw (Error "User with this email already exists")) /\
  (fst (userExists e st) = Ok false <->
   fst (register r e p f m st) = Ok (user_object (newUser r e p f m))) /\
  snd (userExists e st) = st.
Proof.
  intros Hst. rewrite (userExists_run st us Hst e), (register_run st us Hst r e p f m).
  destruct (existsb (same_email e) us); cbn [fst snd].
  - split; [tauto|]. split; [|reflexivity]. split; discriminate.
  - split; [|split; [tauto | reflexivity]]. split; discriminate.
Qed.

(** X4.  A users entry that is valid JSON but not an array is not
    treated as empty: [register], [login] and [userExists] all throw a
    TypeError on it, for every argument, and leave the storage untouched. *)
Theorem non_array_users_entry_throws (st : Storage) (j : json) :
  items st !! USERS_STORAGE_KEY = Some (Json j) ->
  is_array j = false ->
  (forall (r : Readings) (e p f : string) (m : option string),
     register r e p f m st = (Throw TypeError, st)) /\
  (forall e p : string, login e p st = (Throw TypeError, st)) /\
  (forall e : string, userExists e st = (Throw TypeError, st)).
Proof.
  intros Hj Harr.
  assert (Hget : getStoredUsers st = (Ok (of_json j), st)).
  { rewrite getStoredUsers_pair, getStoredUsers_value, Hj. reflexivity. }
  split; [|split].
  - intros r e p f m. unfold register, LocalStorage.bind. rewrite Hget.
    destruct j; try discriminate; reflexivity.
  - intros e p. unfold login, LocalStorage.bind. rewrite Hget.
    destruct j; try discriminate; reflexivity.
  - intros e. unfold userExists, LocalStorage.bind. rewrite Hget.
    destruct j; try discriminate; reflexivity.
Qed.

(** X5.  Each operation writes to its own keys only, whatever the
    storage holds: [register] changes at most the users entry and the
    session entry, [login] and [logout] at most the session entry, and
    [userExists] and [getCurrentUser] nothing; none of them changes what
    the browser accepts. *)
Theorem operations_write_their_keys_only (st : Storage) :
  (forall (r : Readings) (e p f : string) (m : option string),
     let st' := snd (register r e p f m st) in
     delete USERS_STORAGE_KEY (delete CURRENT_USER_KEY (items st'))
     = delete USERS_STORAGE_KEY (delete CURRENT_USER_KEY (items st)) /\
     accepts st' = accepts st) /\
  (forall e p : string,
     let st' := snd (login e p st) in
     delete CURRENT_USER_KEY (items st') = delete CURRENT_USER_KEY (items st) /\
     items st' !! USERS_STORAGE_KEY = items st !! USERS_STORAGE_KEY /\
     accepts st' = accepts st) /\
  (delete CURRENT_USER_KEY (items (snd (logout st))) = delete CURRENT_USER_KEY (items st) /\
   accepts (snd (logout st)) = accepts st) /\
  (forall e : string, snd (userExists e st) = st) /\
  snd (getCurrentUser st) = st.
Proof.
  split; [|split; [|split; [|split]]].
  - intros r e p f m st'. subst st'.
    destruct (register_state st r e p f m) as [-> | (t1 & t2 & ->)];
      [split; reflexivity|].
    split.
    + rewrite delete_put_same, (delete_delete _ USERS_STORAGE_KEY), delete_put_same.
      apply delete_delete.
    + rewrite !put_keeps_accepts. reflexivity.
  - intros e p st'. subst st'.
    destruct (login_state st e p) as [-> | (t & ->)]; [repeat split; reflexivity|].
    split; [apply delete_put_same|].
    split; [|apply put_keeps_accepts].
    apply put_lookup_other. intros H. symmetry in H. revert H.
    apply users_key_neq_session_key.
  - rewrite logout_run. cbn [snd]. unfold with_items. cbn [items accepts].
    split; [apply delete_delete_eq | reflexivity].
  - intros e. unfold userExists, LocalStorage.bind.
    destruct (getStoredUsers_reads_only st) as (users & ->). unfold lift.
    destruct (array_some (email_matches e) users); reflexivity.
  - rewrite getCurrentUser_run. reflexivity.
Qed.

(** X6.  [logout] is idempotent and does not touch the user list: a
    second [logout] changes nothing, and [login] and [userExists] answer
    after it as they did before, whatever the storage holds. *)
Theorem logout_idempotent_keeps_users (st : Storage) :
  snd (logout (snd (logout st))) = snd (logout st) /\
  (forall e p : string,
     fst (login e p (snd (logout st))) = fst (login e p st)) /\
  (forall e : string,
     fst (userExists e (snd (logout st))) = fst (userExists e st)).
Proof.
  assert (Hentry : items (snd (logout st)) !! USERS_STORAGE_KEY
                   = items st !! USERS_STORAGE_KEY).
  { rewrite logout_run. cbn [snd]. unfold with_items. cbn [items].
    apply lookup_delete_ne. intros H. symmetry in H. revert H.
    apply users_key_neq_session_key. }
  pose proof (getStoredUsers_same_entry st (snd (logout st)) Hentry) as Hsame.
  split; [|split].
  - rewrite !logout_run. cbn [snd]. unfold with_items. cbn [items accepts].
    f_equal. apply delete_delete_eq.
  - intros e p. unfold login, LocalStorage.bind.
    rewrite (getStoredUsers_pair (snd (logout st))), (getStoredUsers_pair st), Hsame.
    destruct (fst (getStoredUsers st)) as [users|err]; [|reflexivity].
    unfold lift. destruct (array_find (credentials_match e p) users) as [x|err];
      [|reflexivity].
    destruct (negb (truthy x)); [reflexivity|].
    pose proof (setCurrentUser_never_throws x (snd (logout st))) as H1.
    pose proof (setCurrentUser_never_throws x st) as H2.
    destruct (setCurrentUser x (snd (logout st))) as [r1 s1].
    destruct (setCurrentUser x st) as [r2 s2].
    cbn [fst] in H1, H2. subst r1 r2. reflexivity.
  - intros e. unfold userExists, LocalStorage.bind.
    rewrite (getStoredUsers_pair (snd (logout st))), (getStoredUsers_pair st), Hsame.
    destruct (fst (getStoredUsers st)) as [users|err]; [|reflexivity].
    unfold lift. destruct (array_some (email_matches e) users); reflexivity.
Qed.

(** X7.  A users entry that [JSON.parse] rejects counts as an empty
    list: [userExists] answers false, [login] fails and [register]
    returns the new user, for every argument.  The entry is lost with that
    registration when the browser accepts the write, which replaces it by
    the list of the one new record; it stays when the write is refused. *)
Theorem unreadable_users_entry_is_replaced (st : Storage) (s : string)
    (r : Readings) (e p f : string) (m : option string) :
  items st !! USERS_STORAGE_KEY = Some (Raw s) ->
  let written := Json (JArr [user_json (newUser r e p f m)]) in
  fst (userExists e st) = Ok false /\
  (forall p' : string, fst (login e p' st) = Throw (Error "Invalid email or password")) /\
  fst (register r e p f m st) = Ok (user_object (newUser r e p f m)) /\
  (accepted st USERS_STORAGE_KEY written ->
     items (snd (register r e p f m st)) !! USERS_STORAGE_KEY = Some written) /\
  (~ accepted st USERS_STORAGE_KEY written ->
     items (snd (register r e p f m st)) !! USERS_STORAGE_KEY = Some (Raw s)).
Proof.
  intros Hraw written.
  assert (Hst : holds_users st []) by (unfold holds_users; rewrite Hraw; reflexivity).
  split; [rewrite (userExists_run st [] Hst e); reflexivity|].
  split; [intros p'; rewrite (login_run st [] Hst e p'); reflexivity|].
  rewrite (register_run st [] Hst r e p f m). cbn [existsb fst snd app map].
  fold written.
  split; [reflexivity|].
  rewrite put_lookup_other by discriminate.
  split; intros Hacc.
  - rewrite (put_accepted _ _ _ Hacc). apply lookup_insert_eq.
  - unfold put. unfold accepted in Hacc.
    destruct (accepts st (items st) USERS_STORAGE_KEY written); [congruence | exact Hraw].
Qed.

End AuthFurther.

(** The closed statements, with the folding of A-Z. *)
Section AuthFurtherClosed.

Import MockAuthService MockAuthNotions.

#[local] Existing Instance JSString.ascii_folding.

(** The theorem at a second registration. *)
Lemma register_keeps_emails_unique_witness :
  holds_users (roomy (users_entry [alice])) [alice] /\
  emails_unique [alice] /\
  exists us',
    holds_users
      (snd (register other_readings "bob@example.com" "hunter2" "Bob"
              (Some "9876543210") (roomy (users_entry [alice])))) us' /\
    emails_unique us'.
Proof.
  assert (Hu : emails_unique [alice]) by (apply NoDup_singleton).
  assert (Hst : holds_users (roomy (users_entry [alice])) [alice]) by reflexivity.
  split; [exact Hst|]. split; [exact Hu|].
  destruct (register_keeps_emails_unique (roomy (users_entry [alice])) [alice]
              other_readings "bob@example.com" "hunter2" "Bob" (Some "9876543210")
              ascii_folding_idempotent Hst Hu) as (us' & H1 & H2 & _).
  exists us'. split; assumption.
Defined.

(** The theorem at a registration in an empty, roomy storage. *)
Lemma login_after_register_witness :
  holds_users (roomy ∅) [] /\
  fst (login "ALICE@EXAMPLE.COM" "s3cret"
         (snd (register sample_readings "Alice@Example.com" "s3cret" "Alice" None
                 (roomy ∅))))
  = Ok (stored_object alice).
Proof.
  assert (Hst : holds_users (roomy ∅) []) by reflexivity.
  split; [exact Hst|].
  assert (Hv : fst (register sample_readings "Alice@Example.com" "s3cret" "Alice" None
                      (roomy ∅)) = Ok (user_object alice)) by reflexivity.
  assert (Hacc : accepted (roomy ∅) USERS_STORAGE_KEY
                   (Json (JArr (map user_json
                      ([] ++ [newUser sample_readings "Alice@Example.com" "s3cret"
                                "Alice" None]))))) by reflexivity.
  destruct (login_after_register (roomy ∅) [] sample_readings "Alice@Example.com"
              "s3cret" "Alice" None (user_object alice) ascii_folding_idempotent
              Hst Hv Hacc)
    as (Hok & _ & _).
  apply Hok. reflexivity.
Defined.

(** The theorem at a stored user, asked for in another letter case. *)
Lemma userExists_iff_register_fails_witness :
  holds_users (roomy (users_entry [alice])) [alice] /\
  fst (register other_readings "ALICE@example.com" "x" "A" None
         (roomy (users_entry [alice])))
  = Throw (Error "User with this email already exists").
Proof.
  assert (Hst : holds_users (roomy (users_entry [alice])) [alice]) by reflexivity.
  split; [exact Hst|].
  destruct (userExists_iff_register_fails (roomy (users_entry [alice])) [alice]
              other_readings "ALICE@example.com" "x" "A" None Hst) as (H & _).
  apply H. reflexivity.
Defined.

(** The theorem at a users entry that holds an empty object. *)
Lemma non_array_users_entry_throws_witness :
  let st := roomy {[ USERS_STORAGE_KEY := Json (JObj []) ]} in
  items st !! USERS_STORAGE_KEY = Some (Json (JObj [])) /\
  userExists "alice@example.com" st = (Throw TypeError, st).
Proof.
  cbv zeta.
  assert (Hj : items (roomy {[ USERS_STORAGE_KEY := Json (JObj []) ]})
                 !! USERS_STORAGE_KEY = Some (Json (JObj []))) by reflexivity.
  split; [exact Hj|].
  destruct (non_array_users_entry_throws
              (roomy {[ USERS_STORAGE_KEY := Json (JObj []) ]}) (JObj [])
              Hj eq_refl) as (_ & _ & H).
  apply H.
Defined.

(** The theorem at an entry that was cut off in the middle. *)
Lemma unreadable_users_entry_is_replaced_witness :
  let st := roomy {[ USERS_STORAGE_KEY := Raw "[{id:" ]} in
  items st !! USERS_STORAGE_KEY = Some (Raw "[{id:") /\
  items (snd (register sample_readings "Alice@Example.com" "s3cret" "Alice" None st))
    !! USERS_STORAGE_KEY
  = Some (Json (JArr [user_json alice])).
Proof.
  cbv zeta.
  assert (Hraw : items (roomy {[ USERS_STORAGE_KEY := Raw "[{id:" ]})
                   !! USERS_STORAGE_KEY = Some (Raw "[{id:")) by reflexivity.
  split; [exact Hraw|].
  destruct (unreadable_users_entry_is_replaced
              (roomy {[ USERS_STORAGE_KEY := Raw "[{id:" ]}) "[{id:"
              sample_readings "Alice@Example.com" "s3cret" "Alice" None
              Hraw) as (_ & _ & _ & H & _).
  apply H. reflexivity.
Defined.

End AuthFurtherClosed.

(** ** The payment-gateway adapter *)
Section PaymentsFurther.

Import RazorpayService.

(** X8.  Loading the script is memoised: once a call of
    [loadRazorpayScript] has resolved with true, the flag is set and every
    later call, whatever the script element would do, resolves with true
    at once without touching the page: no second script element is
    appended. *)
Theorem loadRazorpayScript_memoised (w : World) (st : Page) :
  fst (loadRazorpayScript w st) = Resolved true ->
  let st' := snd (loadRazorpayScript w st) in
  isRazorpayLoaded st' = true /\
  forall w' : World, loadRazorpayScript w' st' = (Resolved true, st').
Proof.
  intros Hres st'.
  assert (Hflag : isRazorpayLoaded st' = true).
  { subst st'. revert Hres. destruct (isRazorpayLoaded st) eqn:L.
    - rewrite (loadRazorpayScript_loaded w st L). intros _. exact L.
    - rewrite (loadRazorpayScript_fresh w st L).
      destruct (script_event w) as [[]|]; cbn [fst snd]; try discriminate.
      reflexivity. }
  split; [exact Hflag|]. intros w'. apply loadRazorpayScript_loaded, Hflag.
Qed.

(** The theorem at a first load on a fresh page. *)
Lemma loadRazorpayScript_memoised_witness :
  fst (loadRazorpayScript (sample_world None None None) fresh_page) = Resolved true /\
  effects (snd (loadRazorpayScript (sample_world None None None)
                  (snd (loadRazorpayScript (sample_world None None None) fresh_page))))
  = [AppendScript CHECKOUT_SCRIPT].
Proof.
  split; [reflexivity|].
  destruct (loadRazorpayScript_memoised (sample_world None None None) fresh_page eq_refl)
    as (_ & H).
  rewrite H. reflexivity.
Defined.

(** X9.  A failed load is not remembered: when the script element
    reports an error the call resolves with false and the flag stays
    unset, so the next call appends a further script element to the page. *)
Theorem loadRazorpayScript_failure_is_retried (w w' : World) (st : Page) :
  isRazorpayLoaded st = false ->
  script_event w = Some false ->
  let st' := snd (loadRazorpayScript w st) in
  fst (loadRazorpayScript w st) = Resolved false /\
  isRazorpayLoaded st' = false /\
  effects (snd (loadRazorpayScript w' st'))
  = effects st ++ [AppendScript CHECKOUT_SCRIPT; AppendScript CHECKOUT_SCRIPT].
Proof.
  intros L Hev st'. subst st'.
  rewrite (loadRazorpayScript_fresh w st L), Hev. cbn [fst snd].
  split; [reflexivity|]. split; [reflexivity|].
  rewrite loadRazorpayScript_fresh by reflexivity.
  destruct (script_event w') as [[]|]; cbn [snd effects];
    rewrite <- app_assoc; reflexivity.
Qed.

(** The theorem at a page whose script fails to load. *)
Lemma loadRazorpayScript_failure_is_retried_witness :
  let w := {| clock := fun _ => 0%N; random := fun _ => "";
              script_event := Some false; construct_throws := None;
              open_throws := None; modal_callback := None |} in
  isRazorpayLoaded fresh_page = false /\
  effects (snd (loadRazorpayScript w (snd (loadRazorpayScript w fresh_page))))
  = [AppendScript CHECKOUT_SCRIPT; AppendScript CHECKOUT_SCRIPT].
Proof.
  cbv zeta. split; [reflexivity|].
  destruct (loadRazorpayScript_failure_is_retried
              {| clock := fun _ => 0%N; random := fun _ => "";
                 script_event := Some false; construct_throws := None;
                 open_throws := None; modal_callback := None |}
              {| clock := fun _ => 0%N; random := fun _ => "";
                 script_event := Some false; construct_throws := None;
                 open_throws := None; modal_callback := None |}
              fresh_page eq_refl eq_refl) as (_ & _ & H).
  exact H.
Defined.

(** The page after [loadRazorpayScript], in every case. *)
Lemma loadRazorpayScript_cases (w : World) (st : Page) :
  (exists st1, loadRazorpayScript w st = (Resolved true, st1)) \/
  (exists st1, loadRazorpayScript w st = (Resolved false, st1) /\
     isRazorpayLoaded st = false /\ script_event w = Some false) \/
  (exists st1, loadRazorpayScript w st = (Pending, st1)).
Proof.
  destruct (isRazorpayLoaded st) eqn:L.
  - left. exists st. apply loadRazorpayScript_loaded, L.
  - rewrite (loadRazorpayScript_fresh w st L).
    destruct (script_event w) as [[]|]; eauto 6.
Qed.

Ltac upi_unfold :=
  unfold processUPIPayment;
  unfold bind at 1; unfold try_catch; unfold bind at 1.

Ltac upi_order :=
  unfold bind, sleep, perform, Date_now, Math_random_36, ret, call, throw;
  cbn [RazorpayOrderResponse.id].

(** X10.  [processUPIPayment] never reports a success of its own
    making.  Whatever the configuration, the page and the gateway do, a
    result it resolves with carries the amount it was given and the method
    'UPI'; it has success = true only if the gateway invoked the completion
    handler, and then it carries the payment id, order id and signature
    the gateway handed over and no error message; a result with success =
    false always has an error message. *)
Theorem processUPIPayment_success_needs_handler (cfg : Config) (w : World)
    (amount : float) (customerInfo : CustomerInfo) (orderId : string)
    (st : Page) (r : PaymentResult.t) :
  fst (processUPIPayment cfg w amount customerInfo orderId st) = Resolved r ->
  PaymentResult.amount r = amount /\
  PaymentResult.paymentMethod r = "UPI" /\
  (PaymentResult.success r = true ->
     exists response,
       modal_callback w = Some (Handler response) /\
       construct_throws w = None /\
       open_throws w = None /\
       validateRazorpayConfig cfg = true /\
       PaymentResult.razorpayPaymentId r = razorpay_payment_id response /\
       PaymentResult.razorpayOrderId r = razorpay_order_id response /\
       PaymentResult.razorpaySignature r = razorpay_signature response /\
       PaymentResult.errorMessage r = None) /\
  (PaymentResult.success r = false ->
     exists message, PaymentResult.errorMessage r = Some message).
Proof.
  upi_unfold.
  destruct (loadRazorpayScript_cases w st)
    as [(st1 & ->) | [(st1 & -> & _ & _) | (st1 & ->)]];
    cbn [negb]; [| | discriminate].
  - unfold createOrder.
    destruct (validateRazorpayConfig cfg) eqn:Hvalid; cbn [negb].
    + upi_order.
      match goal with
      | |- context [generateRazorpayOptions ?c ?a ?i ?ci ?m] =>
          destruct (generateRazorpayOptions c a i ci m) as [options|t]
      end.
      * unfold new_Promise, adopt, never.
        destruct (construct_throws w) as [t|] eqn:Hc; [discriminate|].
        destruct (open_throws w) as [t|] eqn:Ho; [discriminate|].
        destruct (modal_callback w) as [[response|]|] eqn:Hcb; cbn [fst];
          [| |discriminate].
        -- intros [= <-]. cbn. repeat split; try discriminate.
           intros _. exists response. repeat split; reflexivity.
        -- intros [= <-]. cbn. repeat split; try discriminate. eauto.
      * cbn [fst adopt]. intros [= <-]. cbn. repeat split; try discriminate. eauto.
    + cbn [fst adopt throw]. intros [= <-]. cbn. repeat split; try discriminate. eauto.
  - cbn [fst adopt throw]. intros [= <-]. cbn. repeat split; try discriminate. eauto.
Qed.

(** The theorem at a gateway that completes the payment. *)
Lemma processUPIPayment_success_needs_handler_witness :
  exists r,
    fst (processUPIPayment sample_config
           (sample_world None None
              (Some (Handler {| razorpay_payment_id := Some "pay_1";
                                razorpay_order_id := Some "order_1";
                                razorpay_signature := Some "sig_1" |})))
           499 sample_customer "order_42" fresh_page) = Resolved r /\
    PaymentResult.success r = true /\
    PaymentResult.razorpayPaymentId r = Some "pay_1".
Proof.
  destruct (fst (processUPIPayment sample_config
                   (sample_world None None
                      (Some (Handler {| razorpay_payment_id := Some "pay_1";
                                        razorpay_order_id := Some "order_1";
                                        razorpay_signature := Some "sig_1" |})))
                   499 sample_customer "order_42" fresh_page)) as [r|t|] eqn:E;
    [| vm_compute in E; discriminate ..].
  exists r. split; [reflexivity|].
  assert (Hsucc : PaymentResult.success r = true).
  { pose proof E as E'. vm_compute in E'. injection E' as <-. reflexivity. }
  split; [exact Hsucc|].
  destruct (processUPIPayment_success_needs_handler _ _ _ _ _ _ r E)
    as (_ & _ & Hs & _).
  destruct (Hs Hsucc) as (response & Hcb & _ & _ & _ & Hid & _).
  rewrite Hid. injection Hcb as <-. reflexivity.
Defined.

Lemma sample_reaches_modal (c o : option thrown) (cb : option modal_event) :
  reaches_modal sample_config (sample_world c o cb) 499 sample_customer fresh_page.
Proof.
  split; [right; reflexivity|]. split; [reflexivity|].
  intros order_id. eexists. reflexivity.
Qed.

(** X11.  At the gateway modal the callback decides.  Once the call
    has got as far as the modal and neither the constructor nor [open]
    throws: when the gateway invokes the dismissal callback the promise
    resolves with success = false, the message 'Payment cancelled by user'
    and a 'UPI_CANCELLED_' transaction id; when it invokes the completion
    handler the promise resolves with success = true, no error message and
    the payment id, order id and signature it handed over; either result
    carries the amount asked for; and when it never calls back the promise
    stays pending for good, for there is no timeout. *)
Theorem processUPIPayment_modal_outcomes (cfg : Config) (w : World)
    (amount : float) (customerInfo : CustomerInfo) (orderId : string) (st : Page) :
  reaches_modal cfg w amount customerInfo st ->
  construct_throws w = None ->
  open_throws w = None ->
  let payment := fst (processUPIPayment cfg w amount customerInfo orderId st) in
  match modal_callback w with
  | Some Ondismiss =>
      exists r, payment = Resolved r /\
        PaymentResult.success r = false /\
        PaymentResult.errorMessage r = Some "Payment cancelled by user" /\
        String.prefix "UPI_CANCELLED_" (PaymentResult.transactionId r) = true /\
        PaymentResult.amount r = amount
  | Some (Handler response) =>
      exists r, payment = Resolved r /\
        PaymentResult.success r = true /\
        PaymentResult.errorMessage r = None /\
        PaymentResult.razorpayPaymentId r = razorpay_payment_id response /\
        PaymentResult.razorpayOrderId r = razorpay_order_id response /\
        PaymentResult.razorpaySignature r = razorpay_signature response /\
        PaymentResult.amount r = amount
  | None => payment = Pending
  end.
Proof.
  intros Hready Hc Ho payment. subst payment.
  destruct (modal_callback w) as [[response|]|] eqn:Hcb.
  - apply processUPIPayment_completed; assumption.
  - apply processUPIPayment_dismissed; assumption.
  - apply processUPIPayment_no_callback; assumption.
Qed.

(** The theorem at a gateway whose modal is closed. *)
Lemma processUPIPayment_modal_outcomes_witness :
  reaches_modal sample_config (sample_world None None (Some Ondismiss)) 499
    sample_customer fresh_page /\
  exists r,
    fst (processUPIPayment sample_config (sample_world None None (Some Ondismiss))
           499 sample_customer "order_42" fresh_page) = Resolved r /\
    PaymentResult.errorMessage r = Some "Payment cancelled by user".
Proof.
  split; [apply sample_reaches_modal|].
  destruct (processUPIPayment_modal_outcomes sample_config
              (sample_world None None (Some Ondismiss)) 499 sample_customer
              "order_42" fresh_page (sample_reaches_modal None None (Some Ondismiss))
              eq_refl eq_refl) as (r & Hr & _ & Hm & _).
  exists r. split; assumption.
Defined.

(** X12.  The two errors the adapter raises itself end the call before
    anything is asked of the gateway.  When the script fails to load, or
    when it is available and the configuration check fails, the promise
    resolves with success = false, a 'UPI_FAILED_' transaction id and the
    message of the error; no order is made (no timeout runs) and no
    gateway object is created or opened: the page gets at most the script
    element. *)
Theorem processUPIPayment_fails_before_modal (cfg : Config) (w : World)
    (amount : float) (customerInfo : CustomerInfo) (orderId : string) (st : Page) :
  (isRazorpayLoaded st = false /\ script_event w = Some false) \/
  ((isRazorpayLoaded st = true \/ script_event w = Some true) /\
   validateRazorpayConfig cfg = false) ->
  exists r st',
    processUPIPayment cfg w amount customerInfo orderId st = (Resolved r, st') /\
    PaymentResult.success r = false /\
    PaymentResult.errorMessage r =
      Some (if isRazorpayLoaded st || bool_decide (script_event w = Some true)
            then "Razorpay configuration is invalid"
            else "Failed to load Razorpay payment gateway") /\
    String.prefix "UPI_FAILED_" (PaymentResult.transactionId r) = true /\
    (effects st' = effects st \/
     effects st' = effects st ++ [AppendScript CHECKOUT_SCRIPT]).
Proof.
  intros [[L Hev] | [Hload Hvalid]]; upi_unfold.
  - rewrite (loadRazorpayScript_fresh w st L), Hev, L. cbn [negb throw orb].
    rewrite bool_decide_eq_false_2 by discriminate.
    do 2 eexists. split; [reflexivity|].
    cbn [PaymentResult.success PaymentResult.errorMessage PaymentResult.transactionId
           effects].
    split; [reflexivity|]. split; [reflexivity|]. split; [apply prefix_append|].
    right. reflexivity.
  - assert (Hor : isRazorpayLoaded st || bool_decide (script_event w = Some true) = true).
    { destruct Hload as [-> | Hev]; [reflexivity|].
      rewrite (bool_decide_eq_true_2 _ Hev). apply orb_true_r. }
    rewrite Hor.
    assert (Hrun : exists st1, loadRazorpayScript w st = (Resolved true, st1) /\
              (effects st1 = effects st \/
               effects st1 = effects st ++ [AppendScript CHECKOUT_SCRIPT])).
    { destruct (isRazorpayLoaded st) eqn:L.
      - exists st. split; [apply loadRazorpayScript_loaded, L | left; reflexivity].
      - destruct Hload as [? | Hev]; [discriminate|].
        rewrite (loadRazorpayScript_fresh w st L), Hev. eexists.
        split; [reflexivity | right; reflexivity]. }
    destruct Hrun as (st1 & -> & Heff).
    cbn [negb]. unfold createOrder. rewrite Hvalid. cbn [negb throw].
    do 2 eexists. split; [reflexivity|].
    cbn [PaymentResult.success PaymentResult.errorMessage PaymentResult.transactionId
           effects].
    split; [reflexivity|]. split; [reflexivity|]. split; [apply prefix_append|].
    exact Heff.
Qed.

(** The theorem at a configuration that does not pass the check. *)
Lemma processUPIPayment_fails_before_modal_witness :
  let cfg := {| RAZORPAY_CONFIG_currency := "INR";
                generateRazorpayOptions := generateRazorpayOptions sample_config;
                validateRazorpayConfig := false |} in
  exists r st',
    processUPIPayment cfg (sample_world None None (Some Ondismiss)) 499
      sample_customer "order_42" fresh_page = (Resolved r, st') /\
    PaymentResult.errorMessage r = Some "Razorpay configuration is invalid".
Proof.
  cbv zeta.
  destruct (processUPIPayment_fails_before_modal
              {| RAZORPAY_CONFIG_currency := "INR";
                 generateRazorpayOptions := generateRazorpayOptions sample_config;
                 validateRazorpayConfig := false |}
              (sample_world None None (Some Ondismiss)) 499 sample_customer
              "order_42" fresh_page)
    as (r & st' & Hrun & _ & Hm & _).
  { right. split; [right; reflexivity | reflexivity]. }
  exists r, st'. split; [exact Hrun | exact Hm].
Defined.

End PaymentsFurther.

(** ** The handlers of the UPI view *)
Section ViewFurther.

Import RazorpayService UPIPaymentView.

(** What [handleUPIAppClick] does with each way the payment can end.
    When the payment settles, the result is reported by one call of a
    prop inside the [try] block, followed by the call of the [catch]
    clause when that call threw; a rejected payment goes to the [catch]
    clause at once; either way the processing state ends.  When the
    payment stays pending, nothing is reported. *)
Lemma handleUPIAppClick_outcome (props : Props) (cfg : Config) (w : World)
    (amount : float) (orderId : string) (app : UPIApp) (v : View) (st : Page) :
  let payment := fst (processUPIPayment cfg w amount customerInfo orderId st) in
  let handled := handleUPIAppClick props cfg w amount orderId app v st in
  let v' := snd (fst handled) in
  let failed := "Failed to process " +:+ app_name app +:+ " payment" in
  match payment with
  | Resolved r =>
      isProcessing v' = false /\
      exists c,
        fst (fst handled) = settles props c failed /\
        calls v' = calls v ++ tried props c failed /\
        if PaymentResult.success r
        then exists t,
               c = onPaymentSuccess
                     {| success := true;
                        transactionId := PaymentResult.transactionId r;
                        paymentMethod := app_name app +:+ " (via Razorpay UPI)";
                        amount := amount; upiId := None; orderId := orderId;
                        timestamp := t |}
        else c = onPaymentError
                   (or_else (PaymentResult.errorMessage r)
                      (app_name app +:+ " payment failed"))
  | Rejected _ =>
      fst (fst handled) = match throws props (onPaymentError failed) with
                          | Some t => Rejected t
                          | None => Resolved tt
                          end /\
      isProcessing v' = false /\
      calls v' = calls v ++ [onPaymentError failed]
  | Pending =>
      fst (fst handled) = Pending /\
      isProcessing v' = true /\
      calls v' = calls v
  end.
Proof.
  cbv zeta.
  unfold handleUPIAppClick, finally, ui_try_catch, ui_bind, update, lift.
  destruct (processUPIPayment cfg w amount customerInfo orderId st) as [[r|t|] st1];
    cbn [fst snd].
  - destruct (PaymentResult.success r); unfold Date_now, invoke, settles, tried;
      cbn [fst snd isProcessing calls setIsProcessing];
      match goal with
      | |- context [throws props ?c] => destruct (throws props c) as [t1|] eqn:E1
      end; cbn [fst snd isProcessing calls setIsProcessing];
      try match goal with
      | |- context [throws props (onPaymentError ("Failed to process " +:+ ?m))] =>
          destruct (throws props (onPaymentError ("Failed to process " +:+ m)))
            as [t2|] eqn:E2
      end; cbn [fst snd isProcessing calls setIsProcessing];
      try rewrite <- app_assoc;
      (split; [reflexivity|]); eexists; rewrite E1; try rewrite E2;
      (split; [reflexivity|]); (split; [reflexivity|]);
      try reflexivity; eexists; reflexivity.
  - unfold invoke.
    destruct (throws props _); cbn [fst snd isProcessing calls setIsProcessing];
      repeat split; reflexivity.
  - repeat split; reflexivity.
Qed.

(** X13.  The view on top of the adapter, once the call has got as far
    as the gateway modal; the props may return or throw.  An exception of
    the gateway constructor or of [open] reaches the user as one call
    [onPaymentError('Failed to process <app> payment')] (the thrown
    message is dropped).  Closing the modal is reported first as
    [onPaymentError('Payment cancelled by user')], and a completed payment
    first to [onPaymentSuccess] with the method '<app> (via Razorpay UPI)';
    when that first call returns it is the only one, and when it throws,
    the [catch] clause adds [onPaymentError('Failed to process <app>
    payment')].  In all three cases the processing state ends.  When the
    modal never calls back, nothing is reported and the view stays in the
    processing state. *)
Theorem handleUPIAppClick_at_the_modal (props : Props) (cfg : Config) (w : World)
    (amount : float) (orderId : string) (app : UPIApp) (v : View) (st : Page) :
  reaches_modal cfg w amount customerInfo st ->
  let handled := handleUPIAppClick props cfg w amount orderId app v st in
  let v' := snd (fst handled) in
  let failed := "Failed to process " +:+ app_name app +:+ " payment" in
  (forall t, construct_throws w = Some t \/
             (construct_throws w = None /\ open_throws w = Some t) ->
     isProcessing v' = false /\
     calls v' = calls v ++ [onPaymentError failed]) /\
  (construct_throws w = None -> open_throws w = None ->
   modal_callback w = Some Ondismiss ->
     isProcessing v' = false /\
     calls v' = calls v
                ++ tried props (onPaymentError "Payment cancelled by user") failed) /\
  (forall response,
   construct_throws w = None -> open_throws w = None ->
   modal_callback w = Some (Handler response) ->
     isProcessing v' = false /\
     exists id t,
       calls v' = calls v
                  ++ tried props
                       (onPaymentSuccess
                          {| success := true; transactionId := id;
                             paymentMethod := app_name app +:+ " (via Razorpay UPI)";
                             amount := amount; upiId := None; orderId := orderId;
                             timestamp := t |})
                       failed) /\
  (construct_throws w = None -> open_throws w = None ->
   modal_callback w = None ->
     fst (fst handled) = Pending /\ isProcessing v' = true /\ calls v' = calls v).
Proof.
  intros Hready handled v' failed.
  pose proof (handleUPIAppClick_outcome props cfg w amount orderId app v st) as H.
  cbv zeta in H. fold handled in H. fold v' in H. fold failed in H.
  split; [|split; [|split]].
  - intros t Ht.
    assert (Hrej : fst (processUPIPayment cfg w amount customerInfo orderId st)
                   = Rejected t).
    { destruct Ht as [Hc | [Hc Ho]].
      - apply processUPIPayment_constructor_throws; assumption.
      - apply processUPIPayment_open_throws; assumption. }
    rewrite Hrej in H. destruct H as (_ & H1 & H2). split; assumption.
  - intros Hc Ho Hcb.
    destruct (processUPIPayment_dismissed cfg w amount customerInfo orderId st
                Hready Hc Ho Hcb) as (r & Hr & Hs & Hm & _).
    rewrite Hr in H. destruct H as (H1 & c & _ & Hcalls & Hc').
    rewrite Hs, Hm in Hc'. cbn [or_else String.eqb Ascii.eqb Bool.eqb] in Hc'.
    subst c. split; assumption.
  - intros response Hc Ho Hcb.
    destruct (processUPIPayment_completed cfg w amount customerInfo orderId st
                response Hready Hc Ho Hcb) as (r & Hr & Hs & _).
    rewrite Hr in H. destruct H as (H1 & c & _ & Hcalls & Hc').
    rewrite Hs in Hc'. destruct Hc' as (t & ->).
    split; [exact H1|]. eauto.
  - intros Hc Ho Hcb.
    rewrite (processUPIPayment_no_callback cfg w amount customerInfo orderId st
               Hready Hc Ho Hcb) in H.
    exact H.
Qed.

Lemma component_reaches_modal (c o : option thrown) (cb : option modal_event) :
  reaches_modal sample_config (sample_world c o cb) 499 customerInfo fresh_page.
Proof.
  split; [right; reflexivity|]. split; [reflexivity|].
  intros order_id. eexists. reflexivity.
Qed.

(** The theorem at a modal that the user closes, under props that throw:
    the cancellation is reported, and then the failure of the report. *)
Lemma handleUPIAppClick_at_the_modal_witness :
  let w := sample_world None None (Some Ondismiss) in
  reaches_modal sample_config w 499 customerInfo fresh_page /\
  calls (snd (fst (handleUPIAppClick throwing sample_config w 499 "order_42"
                     google_pay idle fresh_page)))
  = [onPaymentError "Payment cancelled by user";
     onPaymentError "Failed to process Google Pay payment"].
Proof.
  cbv zeta. split; [apply component_reaches_modal|].
  destruct (handleUPIAppClick_at_the_modal throwing sample_config
              (sample_world None None (Some Ondismiss))
              499 "order_42" google_pay idle fresh_page
              (component_reaches_modal _ _ _)) as (_ & Hdismiss & _).
  destruct (Hdismiss eq_refl eq_refl eq_refl) as (_ & Hcalls).
  exact Hcalls.
Defined.

(** X14.  The view on top of the adapter, when the call ends before the
    modal; the props may return or throw.  A script that fails to load is
    reported as [onPaymentError('Failed to load Razorpay payment gateway')],
    a configuration that fails the check as 'Razorpay configuration is
    invalid', and an exception of the option generator as its message, or
    as '<app> payment failed' when it threw an error with an empty message.
    When that call returns it is the only one; when it throws, the [catch]
    clause adds [onPaymentError('Failed to process <app> payment')].  Each
    time the processing state ends. *)
Theorem handleUPIAppClick_before_the_modal (props : Props) (cfg : Config)
    (w : World) (amount : float) (orderId : string) (app : UPIApp) (v : View)
    (st : Page) :
  let handled := handleUPIAppClick props cfg w amount orderId app v st in
  let v' := snd (fst handled) in
  let reports (message : string) :=
    isProcessing v' = false /\
    calls v' = calls v
               ++ tried props (onPaymentError message)
                    ("Failed to process " +:+ app_name app +:+ " payment") in
  (isRazorpayLoaded st = false -> script_event w = Some false ->
     reports "Failed to load Razorpay payment gateway") /\
  (isRazorpayLoaded st = true \/ script_event w = Some true ->
   validateRazorpayConfig cfg = false ->
     reports "Razorpay configuration is invalid") /\
  (forall t,
   isRazorpayLoaded st = true \/ script_event w = Some true ->
   validateRazorpayConfig cfg = true ->
   (forall order_id,
      generateRazorpayOptions cfg amount order_id customerInfo "upi" = Throws t) ->
     reports (if String.eqb (message_of t) ""
              then app_name app +:+ " payment failed"
              else message_of t)).
Proof.
  intros handled v' reports.
  pose proof (handleUPIAppClick_outcome props cfg w amount orderId app v st) as H.
  cbv zeta in H. fold handled in H. fold v' in H.
  split; [|split].
  - intros L Hev.
    destruct (processUPIPayment_script_error cfg w amount customerInfo orderId st L Hev)
      as (r & Hr & Hs & Hm & _).
    rewrite Hr in H. destruct H as (H1 & c & _ & Hcalls & Hc').
    rewrite Hs, Hm in Hc'. cbn [or_else] in Hc'.
    change (String.eqb "Failed to load Razorpay payment gateway" "") with false in Hc'.
    subst c. split; assumption.
  - intros Hload Hvalid.
    destruct (processUPIPayment_config_invalid cfg w amount customerInfo orderId st
                Hload Hvalid) as (r & Hr & Hs & Hm).
    rewrite Hr in H. destruct H as (H1 & c & _ & Hcalls & Hc').
    rewrite Hs, Hm in Hc'. cbn [or_else] in Hc'.
    change (String.eqb "Razorpay configuration is invalid" "") with false in Hc'.
    subst c. split; assumption.
  - intros t Hload Hvalid Hthrows.
    destruct (processUPIPayment_options_throw cfg w amount customerInfo orderId st t
                Hload Hvalid Hthrows) as (r & Hr & Hs & Hm).
    rewrite Hr in H. destruct H as (H1 & c & _ & Hcalls & Hc').
    rewrite Hs, Hm in Hc'. cbn [or_else] in Hc'.
    subst c. split; assumption.
Qed.

(** The theorem at a script that fails to load, under props that return. *)
Lemma handleUPIAppClick_before_the_modal_witness :
  let w := {| clock := fun _ => 0%N; random := fun _ => "";
              script_event := Some false; construct_throws := None;
              open_throws := None; modal_callback := None |} in
  isRazorpayLoaded fresh_page = false /\
  calls (snd (fst (handleUPIAppClick returning sample_config w 499 "order_42"
                     google_pay idle fresh_page)))
  = [onPaymentError "Failed to load Razorpay payment gateway"].
Proof.
  cbv zeta. split; [reflexivity|].
  destruct (handleUPIAppClick_before_the_modal returning sample_config
              {| clock := fun _ => 0%N; random := fun _ => "";
                 script_event := Some false; construct_throws := None;
                 open_throws := None; modal_callback := None |}
              499 "order_42" google_pay idle fresh_page) as (Hscript & _).
  destruct (Hscript eq_refl eq_refl) as (_ & Hcalls). exact Hcalls.
Defined.

(** X15.  [handleQRPaymentComplete] confirms without asking anyone:
    whatever the view, the page and the props are, it waits 2000 ms and
    then calls [onPaymentSuccess], once and before any other prop, with
    success = true, an 'RZP_QR_' transaction id, the method 'UPI via
    Razorpay QR' and the amount, order id and UPI id it was given.
    [onPaymentError] is called only when that call threw, with 'Failed to
    verify QR payment. Please contact support.'; the handler's promise
    resolves unless this second call throws too.  The processing state
    ends, and nothing else is done to the page: no gateway object, no
    script. *)
Theorem handleQRPaymentComplete_always_succeeds (props : Props) (w : World)
    (amount : float) (orderId upi : string) (v : View) (st : Page) :
  let handled := handleQRPaymentComplete props w amount orderId upi v st in
  let v' := snd (fst handled) in
  let failed := "Failed to verify QR payment. Please contact support." in
  isProcessing v' = false /\
  (exists r,
     calls v' = calls v ++ tried props (onPaymentSuccess r) failed /\
     fst (fst handled) = settles props (onPaymentSuccess r) failed /\
     success r = true /\
     String.prefix "RZP_QR_" (transactionId r) = true /\
     paymentMethod r = "UPI via Razorpay QR" /\
     UPIPaymentView.amount r = amount /\
     UPIPaymentView.orderId r = orderId /\
     upiId r = Some upi) /\
  effects (snd handled) = effects st ++ [Timeout 2000] /\
  isRazorpayLoaded (snd handled) = isRazorpayLoaded st.
Proof.
  cbv zeta.
  unfold handleQRPaymentComplete, finally, ui_try_catch, ui_bind, update, lift,
    sleep, perform, Date_now, Math_random_36, invoke, tried, settles.
  cbn [fst snd isProcessing calls setIsProcessing effects isRazorpayLoaded
         clock_reads random_reads].
  match goal with
  | |- context [throws props ?c] => destruct (throws props c) as [t1|] eqn:E1
  end; cbn [fst snd isProcessing calls setIsProcessing effects isRazorpayLoaded];
    try match goal with
    | |- context [throws props (onPaymentError ?m)] =>
        destruct (throws props (onPaymentError m)) as [t2|] eqn:E2
    end; cbn [fst snd isProcessing calls setIsProcessing effects isRazorpayLoaded];
    try rewrite <- app_assoc;
    (split; [reflexivity|]); (split; [|split; reflexivity]);
    eexists; rewrite E1; try rewrite E2;
    (split; [reflexivity|]); (split; [reflexivity|]);
    cbn [success transactionId paymentMethod UPIPaymentView.amount
           UPIPaymentView.orderId upiId];
    (split; [reflexivity|]); (split; [apply prefix_append|]);
    repeat split; reflexivity.
Qed.

End ViewFurther.

(** ** The countdown display and the screens *)
Section ScreensFurther.

Import StreamlinedUPIPayment UPIPaymentView.

Lemma string_length_append (s t : string) :
  String.length (s +:+ t) = (String.length s + String.length t)%nat.
Proof.
  induction s as [|c s IH]; [reflexivity|].
  change (S (String.length (s +:+ t)) = S (String.length s + String.length t)).
  rewrite IH. reflexivity.
Qed.

Lemma append_same_length_inj (s1 s2 t1 t2 : string) :
  String.length t1 = String.length t2 ->
  s1 +:+ t1 = s2 +:+ t2 -> s1 = s2 /\ t1 = t2.
Proof.
  revert s2. induction s1 as [|c s1 IH]; intros [|c' s2] Hlen Heq.
  - split; [reflexivity | exact Heq].
  - exfalso. change (t1 = String c' (s2 +:+ t2)) in Heq. subst t1.
    cbn [String.length] in Hlen. rewrite string_length_append in Hlen. lia.
  - exfalso. change (String c (s1 +:+ t1) = t2) in Heq. subst t2.
    cbn [String.length] in Hlen. rewrite string_length_append in Hlen. lia.
  - change (String c (s1 +:+ t1) = String c' (s2 +:+ t2)) in Heq.
    injection Heq as -> Heq. destruct (IH s2 Hlen Heq) as [-> ->].
    split; reflexivity.
Qed.

Lemma two_digits_table :
  forallb (fun k =>
             Nat.eqb (String.length (two_digits k)) 2 &&
             forallb (fun l => implb (String.eqb (two_digits k) (two_digits l))
                                 (Nat.eqb k l)) (seq 0 60))
    (seq 0 60) = true.
Proof. vm_compute. reflexivity. Qed.

Lemma two_digits_facts (k l : nat) :
  (k < 60)%nat -> (l < 60)%nat ->
  String.length (two_digits k) = 2%nat /\
  (two_digits k = two_digits l -> k = l).
Proof.
  intros Hk Hl. pose proof two_digits_table as T.
  rewrite forallb_forall in T.
  assert (Hin : In k (seq 0 60)) by (apply in_seq; lia).
  specialize (T k Hin). apply andb_true_iff in T. destruct T as [T1 T2].
  split; [apply Nat.eqb_eq, T1|].
  intros Heq. rewrite forallb_forall in T2.
  assert (Hin' : In l (seq 0 60)) by (apply in_seq; lia).
  specialize (T2 l Hin'). rewrite Heq, String.eqb_refl in T2.
  apply Nat.eqb_eq. exact T2.
Qed.

Lemma formatTime_parts (t : Z) :
  (0 <= t)%Z ->
  formatTime t =
  pretty (t / 60)%Z +:+ ":" +:+ two_digits (Z.to_nat (t mod 60)) /\
  (Z.to_nat (t mod 60) < 60)%nat.
Proof.
  intros Ht. unfold formatTime, two_digits.
  rewrite Z.rem_mod_nonneg by lia.
  pose proof (Z.mod_pos_bound t 60 ltac:(lia)) as Hb.
  rewrite Z2Nat.id by lia. split; [reflexivity | lia].
Qed.

Lemma formatTime_inj (a b : Z) :
  (0 <= a)%Z -> (0 <= b)%Z ->
  formatTime a = formatTime b -> a = b.
Proof.
  intros Ha Hb Heq.
  destruct (formatTime_parts a Ha) as [Ea Ka].
  destruct (formatTime_parts b Hb) as [Eb Kb].
  rewrite Ea, Eb in Heq.
  destruct (two_digits_facts _ _ Ka Kb) as [La Inj].
  destruct (two_digits_facts _ _ Kb Ka) as [Lb _].
  apply append_same_length_inj in Heq;
    [|cbn [String.length String.append]; change (":" +:+ ?x) with (String ":" x);
      cbn [String.length]; congruence].
  destruct Heq as [Hm Hs].
  apply (inj pretty) in Hm.
  change (String ":" (two_digits (Z.to_nat (a mod 60)))
          = String ":" (two_digits (Z.to_nat (b mod 60)))) in Hs.
  injection Hs as Hs. apply Inj in Hs.
  pose proof (Z.mod_pos_bound a 60 ltac:(lia)).
  pose proof (Z.mod_pos_bound b 60 ltac:(lia)).
  assert (a mod 60 = b mod 60)%Z by lia.
  rewrite (Z.div_mod a 60), (Z.div_mod b 60) by lia. congruence.
Qed.

(** X16.  [formatTime] shows different times differently: two
    different whole numbers of seconds from 0 up to 2^53, the range on
    which the source's binary64 arithmetic is that of the integers, never
    give the same string (minutes, a colon, and the remainder below 60 in
    two digits). *)
Theorem formatTime_distinguishes_times (a b : Z) :
  (0 <= a < 2 ^ 53)%Z -> (0 <= b < 2 ^ 53)%Z -> a <> b ->
  formatTime a <> formatTime b.
Proof.
  intros [Ha _] [Hb _] Hne Heq. apply Hne. apply formatTime_inj; assumption.
Qed.

(** The theorem at 60 seconds and one minute less a second. *)
Lemma formatTime_distinguishes_times_witness :
  formatTime 60 = "1:00" /\ formatTime 59 = "0:59" /\
  formatTime 60 <> formatTime 59.
Proof.
  split; [vm_compute; reflexivity|]. split; [vm_compute; reflexivity|].
  apply (formatTime_distinguishes_times 60 59);
    [split; [lia | reflexivity] | split; [lia | reflexivity] | lia].
Defined.

(** X17.  While the QR countdown runs, the display changes with every
    second: at two different moments of the first 180 seconds after
    entering QR mode, [formatTime] of the timer gives different strings. *)
Theorem countdown_display_never_repeats (n m : nat) :
  (n < m)%nat -> (m <= 180)%nat ->
  let s0 := setPaymentMode qr initial in
  formatTime (timer (seconds n s0)) <> formatTime (timer (seconds m s0)).
Proof.
  intros Hnm Hm s0 Heq.
  assert (Hs0 : s0 = {| paymentMode := qr; timer := 180;
                        isExpired := false; interval := true |}) by reflexivity.
  assert (Htimer : forall k, (k <= 180)%nat ->
             timer (seconds k s0) = (180 - Z.of_nat k)%Z).
  { intros k Hk. rewrite Hs0, seconds_running by lia.
    destruct (Z.ltb_spec (Z.of_nat k) 180); cbn [timer]; lia. }
  rewrite (Htimer n), (Htimer m) in Heq by lia.
  apply formatTime_inj in Heq; lia.
Qed.

(** The theorem at the first two seconds. *)
Lemma countdown_display_never_repeats_witness :
  (0 < 1)%nat /\ (1 <= 180)%nat /\
  formatTime (timer (seconds 0 (setPaymentMode qr initial)))
  <> formatTime (timer (seconds 1 (setPaymentMode qr initial))).
Proof.
  split; [lia|]. split; [lia|].
  apply (countdown_display_never_repeats 0 1); lia.
Defined.

Lemma act_consistent (a : action) (s : State) :
  consistent s -> consistent (act a s).
Proof.
  destruct s as [mode t ex iv].
  destruct a, mode; unfold consistent, act, setPaymentMode, resetToSelection, tick;
    cbn [paymentMode timer isExpired interval mode_eqb]; intros H;
    try exact H; try (repeat split; reflexivity).
  - destruct H as (-> & -> & ->). repeat split; reflexivity.
  - destruct H as (-> & -> & ->). left. repeat split; lia.
  - destruct H as (-> & -> & ->). repeat split; reflexivity.
  - destruct H as (-> & -> & ->). repeat split; reflexivity.
  - destruct H as [(-> & -> & Ht) | (-> & -> & ->)].
    + destruct (Z.leb_spec t 1); cbn [paymentMode timer isExpired interval].
      * right. repeat split; reflexivity.
      * left. repeat split; lia.
    + right. repeat split; reflexivity.
Qed.

Lemma run_consistent (acts : list action) (s : State) :
  consistent s -> consistent (run acts s).
Proof.
  revert s. induction acts as [|a acts IH]; intros s Hs; [exact Hs|].
  apply (IH (act a s)), act_consistent, Hs.
Qed.

(** X18.  Whatever the user clicks and however often the interval
    fires, the view keeps its state consistent: off the QR screen the
    timer is 180, nothing is expired and no interval runs; on the QR
    screen either the interval runs with the timer between 1 and 180, or
    the code is expired with the timer at 0 and the interval cleared.
    Consequently every entry into QR mode starts a full countdown of 180,
    and an expired QR screen changes only through Back, which leads to the
    initial state. *)
Theorem view_state_stays_consistent (acts : list action) :
  let s := run acts initial in
  consistent s /\
  (0 <= timer s <= 180)%Z /\
  (if mode_eqb (paymentMode s) selection
   then act ChooseQR s
        = {| paymentMode := qr; timer := 180; isExpired := false; interval := true |}
   else True) /\
  (if isExpired s
   then forall a, act a s = if match a with Back => true | _ => false end
                            then initial else s
   else True).
Proof.
  intros s.
  assert (Hc : consistent s) by (apply run_consistent; cbn; repeat split).
  split; [exact Hc|]. clearbody s.
  destruct s as [mode t ex iv]. unfold consistent in Hc.
  cbn [timer paymentMode isExpired interval] in Hc |- *.
  destruct mode; cbn [mode_eqb].
  - destruct Hc as (-> & -> & ->). repeat split; lia.
  - destruct Hc as (-> & -> & ->). repeat split; lia.
  - destruct Hc as [(-> & -> & Ht) | (-> & -> & ->)].
    + repeat split; lia.
    + split; [lia|]. split; [exact I|]. intros []; reflexivity.
Qed.

End ScreensFurther.
